(** * Tubely: the video upload handler

    A shallow embedding of the upload handler and its helpers, in the two
    revisions the sources hold: the later one, which remuxes before probing
    and stores an encoded bucket/key reference, and the earlier one of
    [handler_upload_video.go].  The properties proved are those of the
    aspect-ratio classifier, the reference codec, the signing conversion
    and the handler's sequencing, authorization and cleanup. *)

From stdpp Require Import gmap strings list.
From Stdlib Require Import ZArith Lia Ascii.

Local Open Scope string_scope.
Local Open Scope Z_scope.

(** ** Go's [int]

    [width] and [height] are Go [int]s; on the 64-bit targets the server is
    built for they are 64-bit two's-complement integers.  Products wrap
    around, and [/] truncates toward zero. *)

Module GoInt.

Definition max_int : Z := 2 ^ 63 - 1.
Definition min_int : Z := - 2 ^ 63.

Definition in_range (z : Z) : Prop := min_int <= z <= max_int.

Definition wrap (z : Z) : Z := (z + 2 ^ 63) mod 2 ^ 64 - 2 ^ 63.

Definition mul (a b : Z) : Z := wrap (a * b).

(** Go's integer division: the quotient is truncated toward zero.  (The
    only divisor in the code is the constant 9.) *)
Definition quo (a b : Z) : Z := wrap (Z.quot a b).

End GoInt.

(** ** The classifier (the tail of [getVideoAspectRatio])

    [landscape_check] and [portrait_check] are the two conditions as the
    code evaluates them; [aspectRatio] is the [if / else if] over them. *)

Definition landscape_check (width height : Z) : bool :=
  width =? GoInt.quo (GoInt.mul 16 height) 9.

Definition portrait_check (width height : Z) : bool :=
  height =? GoInt.quo (GoInt.mul 16 width) 9.

Definition aspectRatio (width height : Z) : string :=
  if landscape_check width height then "16:9"
  else if portrait_check width height then "9:16"
  else "other".

(** The conditions as the specification words them: exact equality with the
    floor quotient over the (unbounded) integers. *)
Definition spec_landscape (width height : Z) : Prop := width = 16 * height / 9.
Definition spec_portrait (width height : Z) : Prop := height = 16 * width / 9.

(** ** Strings, errors and results *)

(** A Go [error] value is modelled by its message. *)
Definition error : Type := string.

Inductive result (A : Type) : Type :=
| Ok (a : A)
| Err (err : error).
Arguments Ok {A} a.
Arguments Err {A} err.

(** [strings.Split(s, sep)] for a one-byte separator: the substrings of [s]
    between consecutive separators, one more than there are separators. *)
Fixpoint strings_Split (s : string) (sep : ascii) : list string :=
  match s with
  | EmptyString => [EmptyString]
  | String c rest =>
      if Ascii.eqb c sep then EmptyString :: strings_Split rest sep
      else match strings_Split rest sep with
           | hd :: tl => String c hd :: tl
           | [] => [String c EmptyString]
           end
  end.

Definition comma : ascii := ","%char.

(** [contains_sep s] tells whether the delimiter occurs in [s]. *)
Fixpoint contains_sep (s : string) : bool :=
  match s with
  | EmptyString => false
  | String c rest => Ascii.eqb c comma || contains_sep rest
  end.

(** ** The reference codec

    [encodeReference] is line 210 of the handler
    ([cfg.s3Bucket + "," + key]); [decodeReference] is lines 247-253 of
    [dbVideoToSignedVideo]. *)

Definition encodeReference (bucket key : string) : string :=
  bucket +:+ "," +:+ key.

Definition decodeReference (videoURL : string) : result (string * string) :=
  let split := strings_Split videoURL comma in
  if (length split <? 2)%nat then Err "error: invalid video url"
  else
    let bucket := nth 0 split "" in
    let key := nth 1 split "" in
    Ok (bucket, key).

(** The text of [s] before its first delimiter (all of [s] if it has none)
    and the text after it. *)
Fixpoint before_sep (s : string) : string :=
  match s with
  | EmptyString => EmptyString
  | String c rest => if Ascii.eqb c comma then EmptyString else String c (before_sep rest)
  end.

Fixpoint after_sep (s : string) : string :=
  match s with
  | EmptyString => EmptyString
  | String c rest => if Ascii.eqb c comma then rest else after_sep rest
  end.

(** The decoder as the specification words it: cut at the first delimiter,
    the whole remainder being the key; no delimiter is a failure. *)
Definition spec_decode (s : string) : option (string * string) :=
  if contains_sep s then Some (before_sep s, after_sep s) else None.

Definition result_to_option {A : Type} (x : result A) : option A :=
  match x with
  | Ok a => Some a
  | Err _ => None
  end.

(** ** Records of the metadata store *)

(** Modelled from the spec: the declaration of [database.Video] is not
    among the sources; section 3 gives it an identifier, an owner
    identifier and a nullable stored reference ([*string] in the code). *)
Record Video : Type := mkVideo {
  ID : string;
  UserID : string;
  VideoURL : option string
}.

Definition set_VideoURL (video : Video) (url : string) : Video :=
  {| ID := ID video; UserID := UserID video; VideoURL := Some url |}.

(** ** The environment of a request

    What the handler calls but the sources do not define, each as a
    function from the call's arguments to its outcome: the library calls
    ([uuid.Parse], [mime.ParseMediaType], [os.CreateTemp], [io.Copy],
    [Seek], [os.Open], [path.Join], the S3 client, and the [ffmpeg] and
    [ffprobe] processes with the decoding of the probe's JSON) and the
    repository's own [auth] package, [getAssetPath] and
    [cfg.getVideoURL]. *)

Record Stream : Type := mkStream { Width : Z; Height : Z }.

Inductive ProbeOutput : Type :=
| ProbeRunError (err : error)        (* ffprobe could not run or failed *)
| ProbeBadJSON (err : error)         (* its output did not unmarshal *)
| ProbeStreams (streams : list Stream).

Record Env : Type := mkEnv {
  s3Bucket : string;
  jwtSecret : string;
  uuid_Parse : string -> result string;
  auth_GetBearerToken : string -> result string;
  auth_ValidateJWT : string -> string -> result string;
  mime_ParseMediaType : string -> result string;
  os_CreateTemp : string -> string -> result string;
  io_Copy : string -> string -> option error;
  Seek : string -> option error;
  ffmpeg : string -> option error;
  ffprobe : string -> ProbeOutput;
  os_Open : string -> option error;
  getAssetPath : string -> string;
  path_Join : string -> string -> string;
  s3_PutObject : string -> string -> string -> string -> option error;
  s3_PresignGetObject : string -> string -> Z -> result string;
  getVideoURL : string -> string;
  db_UpdateVideo_err : Video -> option error
}.

(** The uploaded form file: its bytes and its [Content-Type] header. *)
Record FormFile : Type := mkFormFile {
  fileBytes : string;
  contentTypeHeader : string
}.

Record Request : Type := mkRequest {
  PathValue_videoID : string;
  Header : string;
  ParseMultipartForm : option error;
  FormFile_video : result FormFile
}.

(** ** The world the handler acts on *)

Inductive Payload : Type :=
| ErrorBody (msg : string)
| VideoBody (video : Video).

Record Response : Type := mkResponse {
  status : Z;
  body : Payload
}.

(** One entry per call the handler makes to a collaborator, whatever the
    call's outcome. *)
Inductive Event : Type :=
| DbGetVideo (id : string)
| DbUpdateVideo (video : Video)
| OsCreateTemp (dir pattern : string)
| IoCopy (dst : string)
| FileSeek (name : string)
| Ffmpeg (input output : string)
| Ffprobe (filePath : string)
| OsOpen (name : string)
| S3PutObject (bucket key bodyFile contentType : string)
| OsRemove (name : string)
| FileClose (name : string).

Record World : Type := mkWorld {
  files : gset string;
  videos : gmap string Video;
  calls : list Event;
  response : option Response
}.

Inductive Deferred : Type :=
| DeferRemove (name : string)
| DeferClose (name : string).

(** A running call of a Go function: the world, and the stack of deferred
    calls, most recent first. *)
Record Frame : Type := mkFrame {
  world : World;
  deferred : list Deferred
}.

(** A statement sequence: it either falls through with a value or executes
    [return] ([None]). *)
Definition Go (A : Type) : Type := Frame -> Frame * option A.

Definition ret {A : Type} (a : A) : Go A := fun f => (f, Some a).

Definition bind {A B : Type} (m : Go A) (k : A -> Go B) : Go B :=
  fun f =>
    match m f with
    | (f', Some a) => k a f'
    | (f', None) => (f', None)
    end.

Notation "x <- m ;; k" := (bind m (fun x => k))
  (at level 100, m at next level, right associativity).
Notation "m ;;; k" := (bind m (fun _ => k))
  (at level 100, right associativity).

Definition return_ {A : Type} : Go A := fun f => (f, None).

Definition on_world (g : World -> World) : Go unit :=
  fun f => ({| world := g (world f); deferred := deferred f |}, Some tt).

Definition defer (d : Deferred) : Go unit :=
  fun f => ({| world := world f; deferred := d :: deferred f |}, Some tt).

Definition get_world : Go World := fun f => (f, Some (world f)).

Definition log (e : Event) (w : World) : World :=
  {| files := files w; videos := videos w;
     calls := calls w ++ [e]; response := response w |}.

Definition call (e : Event) : Go unit := on_world (log e).

Definition create_file (name : string) (w : World) : World :=
  {| files := {[ name ]} ∪ files w; videos := videos w;
     calls := calls w; response := response w |}.

(** [os.Remove]: the name is gone afterwards. *)
Definition os_Remove (name : string) (w : World) : World :=
  log (OsRemove name)
    {| files := files w ∖ {[ name ]}; videos := videos w;
       calls := calls w; response := response w |}.

Definition store_video (video : Video) (w : World) : World :=
  {| files := files w; videos := <[ ID video := video ]> (videos w);
     calls := calls w; response := response w |}.

Definition write_response (r : Response) (w : World) : World :=
  {| files := files w; videos := videos w;
     calls := calls w; response := Some r |}.

(** Modelled from the spec: [respondWithError] and [respondWithJSON] are
    not among the sources; section 6 has them write the status and either
    an error message or the serialized record. *)
Definition respondWithError (code : Z) (msg : string) : Go unit :=
  on_world (write_response {| status := code; body := ErrorBody msg |}).

Definition respondWithJSON (code : Z) (payload : Video) : Go unit :=
  on_world (write_response {| status := code; body := VideoBody payload |}).

(** The handler's idiom
    [if err != nil { respondWithError(w, code, msg, err); return }]. *)
Definition orRespond {A : Type} (x : result A) (code : Z) (msg : string) : Go A :=
  match x with
  | Ok a => ret a
  | Err _ => respondWithError code msg ;;; return_
  end.

Definition errOf (x : option error) : result unit :=
  match x with
  | None => Ok tt
  | Some err => Err err
  end.

(** Modelled from the spec: the metadata store is not among the sources;
    section 6 gives [GetRecord(id) -> Record | NotFoundError] and
    [UpdateRecord(record) -> () | PersistenceError]. *)
Definition db_GetVideo (id : string) : Go (result Video) :=
  call (DbGetVideo id) ;;;
  w <- get_world ;;
  ret (match videos w !! id with
       | Some video => Ok video
       | None => Err "sql: no rows in result set"
       end).

Definition db_UpdateVideo (E : Env) (video : Video) : Go (result unit) :=
  call (DbUpdateVideo video) ;;;
  match db_UpdateVideo_err E video with
  | Some err => ret (Err err)
  | None => on_world (store_video video) ;;; ret (Ok tt)
  end.

(** Deferred calls run last-registered first when the function returns. *)
Definition run_deferred_call (d : Deferred) (w : World) : World :=
  match d with
  | DeferRemove name => os_Remove name w
  | DeferClose name => log (FileClose name) w
  end.

Fixpoint run_deferred (ds : list Deferred) (w : World) : World :=
  match ds with
  | [] => w
  | d :: ds' => run_deferred ds' (run_deferred_call d w)
  end.

(** Leaving the function, by [return] or by reaching its end, runs the
    deferred calls. *)
Definition finish {A : Type} (out : Frame * option A) : World :=
  run_deferred (deferred (fst out)) (world (fst out)).

Definition run {A : Type} (body : Go A) (w : World) : World :=
  finish (body {| world := w; deferred := [] |}).

(** The calls made between two worlds of one run. *)
Definition calls_since (w w' : World) : list Event :=
  drop (length (calls w)) (calls w').

(** ** The functions of the handler's source file (later revision) *)

Definition getVideoAspectRatio (E : Env) (filePath : string) : Go (result string) :=
  call (Ffprobe filePath) ;;;
  ret (match ffprobe E filePath with
       | ProbeRunError err => Err ("ffprobe error: " +:+ err)
       | ProbeBadJSON err => Err ("error: failed to unmarshal ffmpeg res: " +:+ err)
       | ProbeStreams [] => Err "error: ffmpeg result is empty"
       | ProbeStreams (stream0 :: _) =>
           let width := Width stream0 in
           let height := Height stream0 in
           Ok (aspectRatio width height)
       end).

(** A failing [ffmpeg] run is taken to leave no output file behind. *)
Definition processVideoForFastStart (E : Env) (filePath : string) : Go (result string) :=
  let outputFilePath := filePath +:+ ".processing" in
  call (Ffmpeg filePath outputFilePath) ;;;
  match ffmpeg E filePath with
  | Some err => ret (Err ("error: ffmpeg command error: " +:+ err))
  | None => on_world (create_file outputFilePath) ;;; ret (Ok outputFilePath)
  end.

Definition minute : Z := 60 * 1000000000.

Definition generatePresignedURL (E : Env) (bucket key : string) (expireTime : Z)
  : result string :=
  match s3_PresignGetObject E bucket key expireTime with
  | Err err => Err ("error: failed to get presign object: " +:+ err)
  | Ok url => Ok url
  end.

(** The record is passed and returned by value: the assignment to
    [video.VideoURL] replaces the pointer held by the function's own copy
    and writes nothing through it.  The second component is the returned
    [error] ([None] for [nil]). *)
Definition dbVideoToSignedVideo (E : Env) (video : Video) : Video * option error :=
  match VideoURL video with
  | None => (video, None)
  | Some videoURL =>
      match decodeReference videoURL with
      | Err err => (video, Some err)
      | Ok (bucket, key) =>
          match generatePresignedURL E bucket key (minute * 5) with
          | Err err =>
              (video, Some ("error: failed to generate presigned URL: " +:+ err))
          | Ok presignedURL => (set_VideoURL video presignedURL, None)
          end
      end
  end.

(** The [switch aspectRatio] of the handler. *)
Definition directoryFor (aspectRatio : string) : string :=
  if String.eqb aspectRatio "16:9" then "landscape"
  else if String.eqb aspectRatio "9:16" then "portrait"
  else "other".

Definition os_CreateTemp_call (E : Env) (dir pattern : string) : Go (result string) :=
  call (OsCreateTemp dir pattern) ;;;
  match os_CreateTemp E dir pattern with
  | Ok name => on_world (create_file name) ;;; ret (Ok name)
  | Err err => ret (Err err)
  end.

Definition multipartFile : string := "multipart:video".

Definition handlerUploadVideo_body (E : Env) (r : Request) : Go unit :=
  (* Get video ID from URL path *)
  videoID <- orRespond (uuid_Parse E (PathValue_videoID r)) 400 "Invalid video ID" ;;
  (* Auth user and get their ID *)
  token <- orRespond (auth_GetBearerToken E (Header r))
             401 "Couldn't get JWT from header" ;;
  userID <- orRespond (auth_ValidateJWT E token (jwtSecret E)) 401 "Invalid JWT" ;;
  (* Grab video metadata from database *)
  got <- db_GetVideo videoID ;;
  videoMetadata <- orRespond got 500 "Failed to get video from database" ;;
  (if bool_decide (UserID videoMetadata ≠ userID)
   then respondWithError 401 "Video is not yours!" ;;; return_
   else ret tt) ;;;
  (* Parse the form and check the content type *)
  _ <- orRespond (errOf (ParseMultipartForm r)) 400 "Exceeded max upload file size" ;;
  file <- orRespond (FormFile_video r) 400 "Unable to parse form file" ;;
  defer (DeferClose multipartFile) ;;;
  let contentType := contentTypeHeader file in
  mediaType <- orRespond (mime_ParseMediaType E contentType)
                 400 "failed to get content type" ;;
  (if bool_decide (mediaType ≠ "video/mp4")
   then respondWithError 400 "incorrect file type" ;;; return_
   else ret tt) ;;;
  (* Create temp file and copy the upload into it *)
  created <- os_CreateTemp_call E "" "tubely-upload.mp4" ;;
  tempFile <- orRespond created 500 "failed to create temp file" ;;
  defer (DeferRemove tempFile) ;;;
  defer (DeferClose tempFile) ;;;
  call (IoCopy tempFile) ;;;
  _ <- orRespond (errOf (io_Copy E tempFile (fileBytes file)))
         500 "failed to copy file to disk" ;;
  call (FileSeek tempFile) ;;;
  _ <- orRespond (errOf (Seek E tempFile)) 500 "Could not reset file pointer" ;;
  (* Remux, then build the upload path from the aspect ratio *)
  processed <- processVideoForFastStart E tempFile ;;
  processedFilePath <- orRespond processed 500 "failed to process video" ;;
  probed <- getVideoAspectRatio E processedFilePath ;;
  aspectRatio <- orRespond probed 500 "Error determining aspect ratio" ;;
  let directory := directoryFor aspectRatio in
  (* Open the processed file to upload its contents *)
  call (OsOpen processedFilePath) ;;;
  _ <- orRespond (errOf (os_Open E processedFilePath))
         500 "failed to open processed file" ;;
  defer (DeferRemove processedFilePath) ;;;
  defer (DeferClose processedFilePath) ;;;
  let key := getAssetPath E mediaType in
  let key := path_Join E directory key in
  call (S3PutObject (s3Bucket E) key processedFilePath mediaType) ;;;
  _ <- orRespond (errOf (s3_PutObject E (s3Bucket E) key processedFilePath mediaType))
         500 "Couldn't put object into S3" ;;
  let bucketAndKey := encodeReference (s3Bucket E) key in
  let videoMetadata := set_VideoURL videoMetadata bucketAndKey in
  updated <- db_UpdateVideo E videoMetadata ;;
  _ <- orRespond updated 500 "Couldn't update video" ;;
  let '(signedVideo, err) := dbVideoToSignedVideo E videoMetadata in
  match err with
  | Some _ => respondWithError 500 "Couldn't sign video" ;;; return_
  | None => respondWithJSON 200 signedVideo
  end.

Definition handlerUploadVideo (E : Env) (r : Request) (w : World) : World :=
  run (handlerUploadVideo_body E r) w.

(** ** The earlier revision of the handler

    The second source file holds an earlier revision of the same handler:
    it probes the staged file, uploads it without remuxing, and stores the
    object's URL, computed by [cfg.getVideoURL], in the record. *)

Module Earlier.

Definition handlerUploadVideo_body (E : Env) (r : Request) : Go unit :=
  videoID <- orRespond (uuid_Parse E (PathValue_videoID r)) 400 "Invalid video ID" ;;
  token <- orRespond (auth_GetBearerToken E (Header r))
             401 "Couldn't get JWT from header" ;;
  userID <- orRespond (auth_ValidateJWT E token (jwtSecret E)) 401 "Invalid JWT" ;;
  got <- db_GetVideo videoID ;;
  videoMetadata <- orRespond got 500 "Failed to get video from database" ;;
  (if bool_decide (UserID videoMetadata ≠ userID)
   then respondWithError 401 "Video is not yours!" ;;; return_
   else ret tt) ;;;
  _ <- orRespond (errOf (ParseMultipartForm r)) 400 "Exceeded max upload file size" ;;
  file <- orRespond (FormFile_video r) 400 "Unable to parse form file" ;;
  defer (DeferClose multipartFile) ;;;
  let contentType := contentTypeHeader file in
  mediaType <- orRespond (mime_ParseMediaType E contentType)
                 400 "failed to get content type" ;;
  (if bool_decide (mediaType ≠ "video/mp4")
   then respondWithError 400 "incorrect file type" ;;; return_
   else ret tt) ;;;
  created <- os_CreateTemp_call E "" "tubely-upload.mp4" ;;
  tempFile <- orRespond created 500 "failed to create temp file" ;;
  defer (DeferRemove tempFile) ;;;
  defer (DeferClose tempFile) ;;;
  call (IoCopy tempFile) ;;;
  _ <- orRespond (errOf (io_Copy E tempFile (fileBytes file)))
         500 "failed to copy file to disk" ;;
  call (FileSeek tempFile) ;;;
  _ <- orRespond (errOf (Seek E tempFile)) 500 "Could not reset file pointer" ;;
  probed <- getVideoAspectRatio E tempFile ;;
  aspectRatio <- orRespond probed 500 "Error determining aspect ratio" ;;
  let directory := directoryFor aspectRatio in
  let key := getAssetPath E mediaType in
  let key := path_Join E directory key in
  call (S3PutObject (s3Bucket E) key tempFile mediaType) ;;;
  _ <- orRespond (errOf (s3_PutObject E (s3Bucket E) key tempFile mediaType))
         500 "Couldn't put object into S3" ;;
  let s3FileURL := getVideoURL E key in
  let videoMetadata := set_VideoURL videoMetadata s3FileURL in
  updated <- db_UpdateVideo E videoMetadata ;;
  _ <- orRespond updated 500 "Couldn't update video" ;;
  respondWithJSON 200 videoMetadata.

Definition handlerUploadVideo (E : Env) (r : Request) (w : World) : World :=
  run (handlerUploadVideo_body E r) w.

End Earlier.

(** ** Observations on the call log *)

Definition is_S3PutObject (e : Event) : bool :=
  match e with S3PutObject _ _ _ _ => true | _ => false end.

Definition is_DbUpdateVideo (e : Event) : bool :=
  match e with DbUpdateVideo _ => true | _ => false end.

Definition is_OsCreateTemp (e : Event) : bool :=
  match e with OsCreateTemp _ _ => true | _ => false end.

Definition count_calls (p : Event -> bool) (l : list Event) : nat :=
  length (List.filter p l).

Definition is_Ffmpeg (e : Event) : bool :=
  match e with Ffmpeg _ _ => true | _ => false end.

Definition is_Ffprobe (e : Event) : bool :=
  match e with Ffprobe _ => true | _ => false end.

Definition is_DbGetVideo (e : Event) : bool :=
  match e with DbGetVideo _ => true | _ => false end.

(** ** Sample environments

    A run in which every collaborator succeeds, and variants of it with one
    failure injected. *)

Definition sampleEnv : Env := {|
  s3Bucket := "tubely-bucket";
  jwtSecret := "secret";
  uuid_Parse := fun s => Ok s;
  auth_GetBearerToken := fun header => Ok header;
  auth_ValidateJWT := fun token _ => Ok token;
  mime_ParseMediaType := fun contentType => Ok contentType;
  os_CreateTemp := fun _ pattern => Ok ("/tmp/" +:+ pattern +:+ "1234");
  io_Copy := fun _ _ => None;
  Seek := fun _ => None;
  ffmpeg := fun _ => None;
  ffprobe := fun _ => ProbeStreams [mkStream 1920 1080];
  os_Open := fun _ => None;
  getAssetPath := fun _ => "abc.mp4";
  path_Join := fun dir name => dir +:+ "/" +:+ name;
  s3_PutObject := fun _ _ _ _ => None;
  s3_PresignGetObject := fun bucket key _ =>
    Ok ("https://" +:+ bucket +:+ ".s3.amazonaws.com/" +:+ key +:+ "?X-Amz-Signature=abc");
  getVideoURL := fun key => "https://tubely-bucket.s3.amazonaws.com/" +:+ key;
  db_UpdateVideo_err := fun _ => None
|}.

Definition with_ffprobe (E : Env) (probe : string -> ProbeOutput) : Env := {|
  s3Bucket := s3Bucket E;
  jwtSecret := jwtSecret E;
  uuid_Parse := uuid_Parse E;
  auth_GetBearerToken := auth_GetBearerToken E;
  auth_ValidateJWT := auth_ValidateJWT E;
  mime_ParseMediaType := mime_ParseMediaType E;
  os_CreateTemp := os_CreateTemp E;
  io_Copy := io_Copy E;
  Seek := Seek E;
  ffmpeg := ffmpeg E;
  ffprobe := probe;
  os_Open := os_Open E;
  getAssetPath := getAssetPath E;
  path_Join := path_Join E;
  s3_PutObject := s3_PutObject E;
  s3_PresignGetObject := s3_PresignGetObject E;
  getVideoURL := getVideoURL E;
  db_UpdateVideo_err := db_UpdateVideo_err E
|}.

Definition with_presign (E : Env) (presign : string -> string -> Z -> result string)
  : Env := {|
  s3Bucket := s3Bucket E;
  jwtSecret := jwtSecret E;
  uuid_Parse := uuid_Parse E;
  auth_GetBearerToken := auth_GetBearerToken E;
  auth_ValidateJWT := auth_ValidateJWT E;
  mime_ParseMediaType := mime_ParseMediaType E;
  os_CreateTemp := os_CreateTemp E;
  io_Copy := io_Copy E;
  Seek := Seek E;
  ffmpeg := ffmpeg E;
  ffprobe := ffprobe E;
  os_Open := os_Open E;
  getAssetPath := getAssetPath E;
  path_Join := path_Join E;
  s3_PutObject := s3_PutObject E;
  s3_PresignGetObject := presign;
  getVideoURL := getVideoURL E;
  db_UpdateVideo_err := db_UpdateVideo_err E
|}.

Definition with_GetBearerToken (E : Env) (bearer : string -> result string) : Env := {|
  s3Bucket := s3Bucket E;
  jwtSecret := jwtSecret E;
  uuid_Parse := uuid_Parse E;
  auth_GetBearerToken := bearer;
  auth_ValidateJWT := auth_ValidateJWT E;
  mime_ParseMediaType := mime_ParseMediaType E;
  os_CreateTemp := os_CreateTemp E;
  io_Copy := io_Copy E;
  Seek := Seek E;
  ffmpeg := ffmpeg E;
  ffprobe := ffprobe E;
  os_Open := os_Open E;
  getAssetPath := getAssetPath E;
  path_Join := path_Join E;
  s3_PutObject := s3_PutObject E;
  s3_PresignGetObject := s3_PresignGetObject E;
  getVideoURL := getVideoURL E;
  db_UpdateVideo_err := db_UpdateVideo_err E
|}.

Definition with_db_UpdateVideo_err (E : Env) (update : Video -> option error) : Env := {|
  s3Bucket := s3Bucket E;
  jwtSecret := jwtSecret E;
  uuid_Parse := uuid_Parse E;
  auth_GetBearerToken := auth_GetBearerToken E;
  auth_ValidateJWT := auth_ValidateJWT E;
  mime_ParseMediaType := mime_ParseMediaType E;
  os_CreateTemp := os_CreateTemp E;
  io_Copy := io_Copy E;
  Seek := Seek E;
  ffmpeg := ffmpeg E;
  ffprobe := ffprobe E;
  os_Open := os_Open E;
  getAssetPath := getAssetPath E;
  path_Join := path_Join E;
  s3_PutObject := s3_PutObject E;
  s3_PresignGetObject := s3_PresignGetObject E;
  getVideoURL := getVideoURL E;
  db_UpdateVideo_err := update
|}.

(** No bearer token in the request's headers. *)
Definition noTokenEnv : Env :=
  with_GetBearerToken sampleEnv (fun _ => Err "no auth header included in request").

(** The metadata store rejects every update. *)
Definition updateFailEnv : Env :=
  with_db_UpdateVideo_err sampleEnv (fun _ => Some "database is locked").

(** The probe reports no stream. *)
Definition probeFailEnv : Env :=
  with_ffprobe sampleEnv (fun _ => ProbeStreams []).

Definition signFailEnv : Env :=
  with_presign sampleEnv (fun _ _ _ => Err "presign failed").

Definition sampleVideo : Video :=
  {| ID := "v1"; UserID := "alice"; VideoURL := None |}.

Definition sampleRequest : Request := {|
  PathValue_videoID := "v1";
  Header := "alice";
  ParseMultipartForm := None;
  FormFile_video := Ok {| fileBytes := "mp4 bytes"; contentTypeHeader := "video/mp4" |}
|}.

Definition strangerRequest : Request := {|
  PathValue_videoID := "v1";
  Header := "mallory";
  ParseMultipartForm := None;
  FormFile_video := Ok {| fileBytes := "mp4 bytes"; contentTypeHeader := "video/mp4" |}
|}.

Definition wrongTypeRequest : Request := {|
  PathValue_videoID := "v1";
  Header := "alice";
  ParseMultipartForm := None;
  FormFile_video := Ok {| fileBytes := "png bytes"; contentTypeHeader := "image/png" |}
|}.

(** A request whose body exceeds the upload cap. *)
Definition oversizedRequest : Request := {|
  PathValue_videoID := "v1";
  Header := "alice";
  ParseMultipartForm := Some "http: request body too large";
  FormFile_video := Err "http: request body too large"
|}.

(** A request for a record the store does not hold. *)
Definition missingRequest : Request := {|
  PathValue_videoID := "v2";
  Header := "alice";
  ParseMultipartForm := None;
  FormFile_video := Ok {| fileBytes := "mp4 bytes"; contentTypeHeader := "video/mp4" |}
|}.

Definition sampleWorld : World := {|
  files := ∅;
  videos := {[ "v1" := sampleVideo ]};
  calls := [];
  response := None
|}.

(** * Properties *)

(** ** Go integer arithmetic *)

Module GoIntFacts.
Import GoInt.

Lemma wrap_id z : in_range z -> wrap z = z.
Proof.
  unfold in_range, wrap, min_int, max_int. intros Hz.
  rewrite Z.mod_small; lia.
Qed.

Lemma wrap_in_range z : in_range (wrap z).
Proof.
  unfold in_range, wrap, min_int, max_int.
  pose proof (Z.mod_pos_bound (z + 2 ^ 63) (2 ^ 64) ltac:(lia)). lia.
Qed.

(** One wrap: a product in [[2^63, 2^64)] lands on the negative side. *)
Lemma wrap_once z : 2 ^ 63 <= z < 2 ^ 64 -> wrap z = z - 2 ^ 64.
Proof.
  intros Hz. unfold wrap.
  replace (z + 2 ^ 63) with ((z - 2 ^ 63) + 1 * 2 ^ 64) by lia.
  rewrite Z.mod_add by lia. rewrite Z.mod_small; lia.
Qed.

Lemma quo_nonneg a : 0 <= a <= max_int -> quo a 9 = a / 9.
Proof.
  unfold quo, max_int. intros Ha.
  rewrite Z.quot_div_nonneg by lia.
  apply wrap_id. unfold in_range, min_int, max_int.
  pose proof (Z.div_pos a 9 ltac:(lia) ltac:(lia)).
  pose proof (Z.div_le_upper_bound a 9 (2 ^ 63 - 1) ltac:(lia) ltac:(lia)).
  lia.
Qed.

Lemma quo_neg a : min_int <= a < 0 -> quo a 9 <= 0.
Proof.
  unfold quo, min_int. intros Ha.
  assert (Hq : Z.quot a 9 = - ((- a) / 9)).
  { replace a with (- (- a)) at 1 by lia.
    rewrite Z.quot_opp_l by lia. rewrite Z.quot_div_nonneg by lia. reflexivity. }
  rewrite Hq.
  pose proof (Z.div_pos (- a) 9 ltac:(lia) ltac:(lia)).
  pose proof (Z.div_le_upper_bound (- a) 9 (2 ^ 63) ltac:(lia) ltac:(lia)).
  rewrite wrap_id; [lia|]. unfold in_range, min_int, max_int. lia.
Qed.

(** A quotient by nine of an in-range value stays below [2^63 / 9]. *)
Lemma quo_upper a : in_range a -> quo a 9 <= 2 ^ 63 / 9.
Proof.
  intros Ha. destruct (Z_lt_le_dec a 0) as [Hn|Hp].
  - pose proof (quo_neg a). unfold in_range in Ha.
    assert (0 <= 2 ^ 63 / 9) by (apply Z.div_pos; lia). lia.
  - unfold in_range in Ha. rewrite quo_nonneg by lia.
    apply Z.div_le_mono; unfold max_int in *; lia.
Qed.

Lemma quo_neg_strict a : min_int <= a <= -9 -> quo a 9 < 0.
Proof.
  unfold quo, min_int. intros Ha.
  assert (Hq : Z.quot a 9 = - ((- a) / 9)).
  { replace a with (- (- a)) at 1 by lia.
    rewrite Z.quot_opp_l by lia. rewrite Z.quot_div_nonneg by lia. reflexivity. }
  rewrite Hq.
  pose proof (Z.div_le_lower_bound (- a) 9 1 ltac:(lia) ltac:(lia)).
  pose proof (Z.div_le_upper_bound (- a) 9 (2 ^ 63) ltac:(lia) ltac:(lia)).
  rewrite wrap_id; [lia|]. unfold in_range, min_int, max_int. lia.
Qed.

(** Without overflow the code's quotient is the floor quotient. *)
Lemma sixteen_ninths z :
  0 <= z -> 16 * z <= max_int -> quo (mul 16 z) 9 = 16 * z / 9.
Proof.
  intros Hz Hmax. unfold mul.
  rewrite (wrap_id (16 * z)) by (unfold in_range, min_int, max_int in *; lia).
  apply quo_nonneg. lia.
Qed.

(** If the wrapped quotient of [16 * z] is a non-negative [q] and [z] is at
    most [2^63 / 9], the product did not overflow. *)
Lemma sixteen_ninths_inv z q :
  0 <= q -> 0 <= z <= 2 ^ 63 / 9 -> q = quo (mul 16 z) 9 ->
  16 * z <= max_int /\ q = 16 * z / 9.
Proof.
  intros Hq Hz Heq.
  assert (Hc : 2 ^ 63 / 9 = 1024819115206086200) by reflexivity.
  destruct (Z_le_gt_dec (16 * z) max_int) as [Hsmall|Hbig].
  - split; [exact Hsmall|]. rewrite Heq. apply sixteen_ninths; lia.
  - exfalso. unfold max_int in Hbig.
    assert (Hw : mul 16 z = 16 * z - 2 ^ 64) by (unfold mul; apply wrap_once; lia).
    pose proof (quo_neg_strict (16 * z - 2 ^ 64)) as Hneg.
    rewrite Hw in Heq. unfold min_int in Hneg. lia.
Qed.

End GoIntFacts.

(** ** The classifier *)

Lemma landscape_check_spec width height :
  0 <= height -> 16 * height <= GoInt.max_int ->
  landscape_check width height = true <-> spec_landscape width height.
Proof.
  intros Hh Hmax. unfold landscape_check, spec_landscape.
  rewrite GoIntFacts.sixteen_ninths by assumption. apply Z.eqb_eq.
Qed.

Lemma portrait_check_spec width height :
  0 <= width -> 16 * width <= GoInt.max_int ->
  portrait_check width height = true <-> spec_portrait width height.
Proof.
  intros Hw Hmax. unfold portrait_check, spec_portrait.
  rewrite GoIntFacts.sixteen_ninths by assumption. apply Z.eqb_eq.
Qed.

Lemma aspectRatio_cases width height :
  (landscape_check width height = true /\ aspectRatio width height = "16:9") \/
  (landscape_check width height = false /\ portrait_check width height = true /\
   aspectRatio width height = "9:16") \/
  (landscape_check width height = false /\ portrait_check width height = false /\
   aspectRatio width height = "other").
Proof.
  unfold aspectRatio.
  destruct (landscape_check width height); [left; done|].
  destruct (portrait_check width height); right; [left|right]; done.
Qed.

(** The reading of the specification's classifier rule, pair by pair. *)
Definition claimed_classifier_law (width height : Z) : Prop :=
  (aspectRatio width height = "16:9" <-> spec_landscape width height) /\
  (aspectRatio width height = "9:16" <-> spec_portrait width height) /\
  (~ spec_landscape width height -> ~ spec_portrait width height ->
   aspectRatio width height = "other").

(** C2, as stated, fails: at (1,1) the Portrait condition holds yet the
    result is Landscape; at (1, 2^60+1) the product [16 * height] wraps
    around to 16 and the pair is classified Landscape although neither
    condition holds over the integers. *)
Lemma C2_counterexample :
  ~ claimed_classifier_law 1 1 /\
  (0 <= 2 ^ 60 + 1 <= GoInt.max_int /\ ~ claimed_classifier_law 1 (2 ^ 60 + 1)).
Proof.
  split; [|split].
  - intros (_ & [_ Hp] & _).
    assert (H : aspectRatio 1 1 = "9:16") by (apply Hp; reflexivity).
    vm_compute in H. discriminate H.
  - unfold GoInt.max_int. lia.
  - intros ([Hl _] & _).
    assert (H : spec_landscape 1 (2 ^ 60 + 1)) by (apply Hl; reflexivity).
    vm_compute in H. discriminate H.
Qed.

(** C2, amended: for non-negative pairs whose products by 16 fit a 64-bit
    int, the classifier returns Landscape exactly when
    [width = 16 * height / 9] (floor), Portrait exactly when
    [height = 16 * width / 9] and the Landscape condition fails, and Other
    exactly when both fail; (1920,1080), (1080,1920) and (640,480) map to
    Landscape, Portrait and Other. *)
Theorem C2_classifier_law :
  (forall width height,
      0 <= width -> 0 <= height ->
      16 * width <= GoInt.max_int -> 16 * height <= GoInt.max_int ->
      (aspectRatio width height = "16:9" <-> spec_landscape width height) /\
      (aspectRatio width height = "9:16" <->
         spec_portrait width height /\ ~ spec_landscape width height) /\
      (aspectRatio width height = "other" <->
         ~ spec_landscape width height /\ ~ spec_portrait width height)) /\
  aspectRatio 1920 1080 = "16:9" /\
  aspectRatio 1080 1920 = "9:16" /\
  aspectRatio 640 480 = "other".
Proof.
  split; [|repeat split; reflexivity].
  intros width height Hw Hh Hmw Hmh.
  pose proof (landscape_check_spec width height Hh Hmh) as HL.
  pose proof (portrait_check_spec width height Hw Hmw) as HP.
  destruct (aspectRatio_cases width height)
    as [[Hl ->]|[(Hl & Hp & ->)|(Hl & Hp & ->)]].
  - apply HL in Hl. repeat split; try done; intros [? ?]; done.
  - assert (~ spec_landscape width height) by (rewrite <- HL, Hl; done).
    apply HP in Hp. repeat split; try done; intros [? ?]; done.
  - assert (~ spec_landscape width height) by (rewrite <- HL, Hl; done).
    assert (~ spec_portrait width height) by (rewrite <- HP, Hp; done).
    repeat split; try done; intros [? ?]; done.
Qed.

Lemma C2_classifier_law_witness :
  (aspectRatio 1280 720 = "16:9" <-> spec_landscape 1280 720) /\
  (aspectRatio 1280 720 = "9:16" <->
     spec_portrait 1280 720 /\ ~ spec_landscape 1280 720) /\
  (aspectRatio 1280 720 = "other" <->
     ~ spec_landscape 1280 720 /\ ~ spec_portrait 1280 720).
Proof.
  apply (proj1 C2_classifier_law 1280 720); unfold GoInt.max_int; lia.
Defined.

Lemma both_checks_small width height :
  0 <= width <= GoInt.max_int -> 0 <= height <= GoInt.max_int ->
  landscape_check width height = true -> portrait_check width height = true ->
  width = 16 * height / 9 /\ height = 16 * width / 9.
Proof.
  intros Hw Hh Hl Hp.
  apply Z.eqb_eq in Hl. apply Z.eqb_eq in Hp.
  assert (Hwu : width <= 2 ^ 63 / 9).
  { rewrite Hl. apply GoIntFacts.quo_upper, GoIntFacts.wrap_in_range. }
  assert (Hhu : height <= 2 ^ 63 / 9).
  { rewrite Hp. apply GoIntFacts.quo_upper, GoIntFacts.wrap_in_range. }
  split.
  - exact (proj2 (GoIntFacts.sixteen_ninths_inv height width
                    (proj1 Hw) (conj (proj1 Hh) Hhu) Hl)).
  - exact (proj2 (GoIntFacts.sixteen_ninths_inv width height
                    (proj1 Hh) (conj (proj1 Hw) Hwu) Hp)).
Qed.

(** C7, as stated, fails: the pair (1,1) satisfies both checks
    ([16 * 1 / 9 = 1]) and is not the pair (0,0). *)
Lemma C7_counterexample :
  landscape_check 1 1 = true /\ portrait_check 1 1 = true /\ (1, 1) <> (0, 0).
Proof. split; [reflexivity | split; [reflexivity | discriminate]]. Qed.

(** C7, amended: the Landscape check is evaluated first, so a pair
    satisfying both checks resolves to Landscape; the classifier always
    returns one of the three orientations; and over the non-negative ints
    the pairs satisfying both checks are exactly (0,0) and (1,1). *)
Theorem C7_tie_break_and_totality width height :
  (landscape_check width height = true -> portrait_check width height = true ->
   aspectRatio width height = "16:9") /\
  (aspectRatio width height = "16:9" \/ aspectRatio width height = "9:16" \/
   aspectRatio width height = "other") /\
  (0 <= width <= GoInt.max_int -> 0 <= height <= GoInt.max_int ->
   (landscape_check width height = true /\ portrait_check width height = true <->
    (width = 0 /\ height = 0) \/ (width = 1 /\ height = 1))).
Proof.
  split; [|split].
  - intros Hl _. unfold aspectRatio. rewrite Hl. reflexivity.
  - destruct (aspectRatio_cases width height)
      as [[_ ->]|[(_ & _ & ->)|(_ & _ & ->)]]; auto.
  - intros Hw Hh. split.
    + intros [Hl Hp].
      destruct (both_checks_small width height Hw Hh Hl Hp) as [Ew Eh].
      pose proof (Z.mul_div_le (16 * height) 9 ltac:(lia)).
      pose proof (Z.mul_succ_div_gt (16 * height) 9 ltac:(lia)).
      pose proof (Z.mul_div_le (16 * width) 9 ltac:(lia)).
      pose proof (Z.mul_succ_div_gt (16 * width) 9 ltac:(lia)).
      lia.
    + intros [[-> ->]|[-> ->]]; split; reflexivity.
Qed.

Lemma C7_tie_break_and_totality_witness :
  landscape_check 1 1 = true /\ portrait_check 1 1 = true <->
  (1 = 0 /\ 1 = 0) \/ (1 = 1 /\ 1 = 1).
Proof.
  apply (proj2 (proj2 (C7_tie_break_and_totality 1 1)));
    unfold GoInt.max_int; lia.
Defined.

(** ** The reference codec *)

Lemma strings_Split_first s :
  strings_Split s comma =
  before_sep s :: (if contains_sep s then strings_Split (after_sep s) comma else []).
Proof.
  induction s as [|c rest IH]; [reflexivity|].
  simpl. destruct (Ascii.eqb c comma); simpl; [reflexivity|].
  rewrite IH. reflexivity.
Qed.

Lemma before_sep_id s : contains_sep s = false -> before_sep s = s.
Proof.
  induction s as [|c rest IH]; [reflexivity|].
  simpl. destruct (Ascii.eqb c comma); simpl; [discriminate|].
  intros H. rewrite IH by exact H. reflexivity.
Qed.

Lemma encodeReference_parts bucket key :
  contains_sep bucket = false ->
  contains_sep (encodeReference bucket key) = true /\
  before_sep (encodeReference bucket key) = bucket /\
  after_sep (encodeReference bucket key) = key.
Proof.
  unfold encodeReference.
  induction bucket as [|c rest IH]; simpl.
  - intros _. repeat split; reflexivity.
  - destruct (Ascii.eqb c comma); simpl; [discriminate|].
    intros H. destruct (IH H) as (-> & -> & ->). repeat split; reflexivity.
Qed.

Lemma decodeReference_first s :
  decodeReference s =
  if contains_sep s then Ok (before_sep s, before_sep (after_sep s))
  else Err "error: invalid video url".
Proof.
  unfold decodeReference. rewrite strings_Split_first.
  destruct (contains_sep s); [|reflexivity].
  rewrite (strings_Split_first (after_sep s)). reflexivity.
Qed.

(** C3: decoding an encoded pair whose components hold no delimiter gives
    the pair back; in particular for ("bucket1", "a/b/c"). *)
Theorem C3_codec_round_trip :
  (forall c k,
      contains_sep c = false -> contains_sep k = false ->
      decodeReference (encodeReference c k) = Ok (c, k)) /\
  decodeReference (encodeReference "bucket1" "a/b/c") = Ok ("bucket1", "a/b/c").
Proof.
  split; [|reflexivity].
  intros c k Hc Hk. rewrite decodeReference_first.
  destruct (encodeReference_parts c k Hc) as (-> & -> & ->).
  rewrite (before_sep_id k Hk). reflexivity.
Qed.

Lemma C3_codec_round_trip_witness :
  decodeReference (encodeReference "tubely-videos" "landscape/abc.mp4")
  = Ok ("tubely-videos", "landscape/abc.mp4").
Proof.
  apply (proj1 C3_codec_round_trip); reflexivity.
Defined.

(** C4, as stated, fails: the code splits on every delimiter and keeps the
    second component only, so the key of "b,a,c" is decoded as "a", not as
    the remainder "a,c" that cutting at the first delimiter gives. *)
Lemma C4_counterexample :
  spec_decode "b,a,c" = Some ("b", "a,c") /\
  decodeReference "b,a,c" = Ok ("b", "a") /\
  result_to_option (decodeReference "b,a,c") <> spec_decode "b,a,c".
Proof. split; [reflexivity | split; [reflexivity | discriminate]]. Qed.

(** C4, amended: decode splits on every occurrence of the delimiter; the
    container is the text before the first delimiter and the key is the
    text between the first delimiter and the next one (the whole remainder
    when there is no further delimiter, in which case decode agrees with
    cutting at the first delimiter); it fails with the invalid-reference
    error exactly when the input has no delimiter, as for "onlyonepart". *)
Theorem C4_decode_components s :
  (contains_sep s = true ->
   decodeReference s = Ok (before_sep s, before_sep (after_sep s))) /\
  (contains_sep (after_sep s) = false ->
   result_to_option (decodeReference s) = spec_decode s) /\
  (decodeReference s = Err "error: invalid video url" <-> contains_sep s = false) /\
  (decodeReference s = Err "error: invalid video url" <->
   (length (strings_Split s comma) < 2)%nat) /\
  decodeReference "onlyonepart" = Err "error: invalid video url".
Proof.
  rewrite decodeReference_first. unfold spec_decode.
  split; [|split; [|split; [|split]]].
  - intros ->. reflexivity.
  - intros Hk. destruct (contains_sep s); [|reflexivity].
    simpl. rewrite (before_sep_id _ Hk). reflexivity.
  - destruct (contains_sep s); split; (discriminate || reflexivity).
  - rewrite strings_Split_first.
    destruct (contains_sep s).
    + rewrite (strings_Split_first (after_sep s)). simpl.
      split; [discriminate | lia].
    + simpl. split; [lia | reflexivity].
  - reflexivity.
Qed.

Lemma C4_decode_components_witness :
  decodeReference "b,a,c" = Ok (before_sep "b,a,c", before_sep (after_sep "b,a,c")) /\
  result_to_option (decodeReference "bucket1,a/b/c") = spec_decode "bucket1,a/b/c".
Proof.
  split.
  - apply (proj1 (C4_decode_components "b,a,c")). reflexivity.
  - apply (proj1 (proj2 (C4_decode_components "bucket1,a/b/c"))). reflexivity.
Defined.

(** ** Symbolic execution of the handler's statements

    [go_exec] runs a statement sequence to its return.  Statements whose
    effect is fixed reduce by computation; a statement that depends on a
    collaborator's outcome uses the hypothesis fixing that outcome if there
    is one, and splits on it otherwise. *)

Lemma finish_pair {A : Type} (f : Frame) (o : option A) :
  finish (f, o) = run_deferred (deferred f) (world f).
Proof. reflexivity. Qed.

Lemma run_deferred_cons d ds w :
  run_deferred (d :: ds) w = run_deferred ds (run_deferred_call d w).
Proof. reflexivity. Qed.

Lemma run_deferred_nil w : run_deferred [] w = w.
Proof. reflexivity. Qed.

Lemma run_deferred_call_remove name w :
  run_deferred_call (DeferRemove name) w = os_Remove name w.
Proof. reflexivity. Qed.

Lemma run_deferred_call_close name w :
  run_deferred_call (DeferClose name) w = log (FileClose name) w.
Proof. reflexivity. Qed.

Section CallSteps.
Context {B : Type} (E : Env).
Implicit Types (f : Frame).

Lemma step_db_UpdateVideo_ok video (k : result unit -> Go B) f :
  db_UpdateVideo_err E video = None ->
  (x <- db_UpdateVideo E video ;; k x) f =
  k (Ok tt)
    {| world := store_video video (log (DbUpdateVideo video) (world f));
       deferred := deferred f |}.
Proof.
  intros H. unfold db_UpdateVideo, bind, call, on_world. simpl. rewrite H. reflexivity.
Qed.

Lemma step_db_UpdateVideo_err video err (k : result unit -> Go B) f :
  db_UpdateVideo_err E video = Some err ->
  (x <- db_UpdateVideo E video ;; k x) f =
  k (Err err)
    {| world := log (DbUpdateVideo video) (world f); deferred := deferred f |}.
Proof.
  intros H. unfold db_UpdateVideo, bind, call, on_world. simpl. rewrite H. reflexivity.
Qed.

Lemma step_os_CreateTemp_ok dir pattern name (k : result string -> Go B) f :
  os_CreateTemp E dir pattern = Ok name ->
  (x <- os_CreateTemp_call E dir pattern ;; k x) f =
  k (Ok name)
    {| world := create_file name (log (OsCreateTemp dir pattern) (world f));
       deferred := deferred f |}.
Proof.
  intros H. unfold os_CreateTemp_call, bind, call, on_world. simpl.
  rewrite H. reflexivity.
Qed.

Lemma step_os_CreateTemp_err dir pattern err (k : result string -> Go B) f :
  os_CreateTemp E dir pattern = Err err ->
  (x <- os_CreateTemp_call E dir pattern ;; k x) f =
  k (Err err)
    {| world := log (OsCreateTemp dir pattern) (world f); deferred := deferred f |}.
Proof.
  intros H. unfold os_CreateTemp_call, bind, call, on_world. simpl.
  rewrite H. reflexivity.
Qed.

Lemma step_processVideo_ok filePath (k : result string -> Go B) f :
  ffmpeg E filePath = None ->
  (x <- processVideoForFastStart E filePath ;; k x) f =
  k (Ok (filePath +:+ ".processing"))
    {| world := create_file (filePath +:+ ".processing")
                  (log (Ffmpeg filePath (filePath +:+ ".processing")) (world f));
       deferred := deferred f |}.
Proof.
  intros H. unfold processVideoForFastStart, bind, call, on_world. simpl.
  rewrite H. reflexivity.
Qed.

Lemma step_processVideo_err filePath err (k : result string -> Go B) f :
  ffmpeg E filePath = Some err ->
  (x <- processVideoForFastStart E filePath ;; k x) f =
  k (Err ("error: ffmpeg command error: " +:+ err))
    {| world := log (Ffmpeg filePath (filePath +:+ ".processing")) (world f);
       deferred := deferred f |}.
Proof.
  intros H. unfold processVideoForFastStart, bind, call, on_world. simpl.
  rewrite H. reflexivity.
Qed.

End CallSteps.

(** Use a hypothesis fixing the outcome [o] if there is one, else split. *)
Ltac go_decide o H :=
  first
    [ match goal with Hx : o = _ |- _ => rewrite Hx in H end
    | let Ho := fresh "Hcase" in destruct o eqn:Ho ].

(** For a call folded into its own function: make its outcome a hypothesis. *)
Ltac go_known_or_split o :=
  first
    [ match goal with Hx : o = _ |- _ => idtac end
    | let Ho := fresh "Hcase" in destruct o eqn:Ho ].

Ltac go_guard P H :=
  first
    [ rewrite (bool_decide_true P) in H by (assumption || congruence)
    | rewrite (bool_decide_false P) in H by (intro; congruence)
    | let Hb := fresh "Hguard" in
      destruct (bool_decide P) eqn:Hb;
      [ apply bool_decide_eq_true_1 in Hb
      | apply bool_decide_eq_false_1 in Hb; try apply dec_stable in Hb ] ].

(** The frame after [return] with an error response. *)
Ltac go_returned code msg f :=
  constr:(@pair Frame (option unit)
            {| world := write_response {| status := code; body := ErrorBody msg |}
                          (world f);
               deferred := deferred f |} None).

Ltac go_step H :=
  cbv beta iota in H;
  cbn [world deferred videos log create_file store_video write_response errOf] in H;
  lazymatch type of H with
  | finish (bind (ret ?a) ?k ?f) = ?w' => change (finish (k a f) = w') in H
  | finish (bind (orRespond (Ok ?a) _ _) ?k ?f) = ?w' =>
      change (finish (k a f) = w') in H
  | finish (bind (orRespond (Err _) ?code ?msg) _ ?f) = ?w' =>
      let out := go_returned code msg f in change (finish out = w') in H
  | finish (bind (orRespond (errOf ?o) _ _) _ _) = _ => go_decide o H
  | finish (bind (orRespond (match ?o with _ => _ end) _ _) _ _) = _ => go_decide o H
  | finish (bind (orRespond ?o _ _) _ _) = _ => go_decide o H
  | finish (bind (call ?e) ?k ?f) = ?w' =>
      change (finish (k tt {| world := log e (world f); deferred := deferred f |}) = w')
        in H
  | finish (bind (defer ?d) ?k ?f) = ?w' =>
      change (finish (k tt {| world := world f; deferred := d :: deferred f |}) = w')
        in H
  | finish (bind (db_GetVideo ?id) ?k ?f) = ?w' =>
      change (finish
                (k (match videos (world f) !! id with
                    | Some video => Ok video
                    | None => Err "sql: no rows in result set"
                    end)
                   {| world := log (DbGetVideo id) (world f); deferred := deferred f |})
              = w') in H
  | finish (bind (getVideoAspectRatio ?E ?p) ?k ?f) = ?w' =>
      change (finish
                (k (match ffprobe E p with
                    | ProbeRunError err => Err ("ffprobe error: " +:+ err)
                    | ProbeBadJSON err =>
                        Err ("error: failed to unmarshal ffmpeg res: " +:+ err)
                    | ProbeStreams [] => Err "error: ffmpeg result is empty"
                    | ProbeStreams (stream0 :: _) =>
                        Ok (aspectRatio (Width stream0) (Height stream0))
                    end)
                   {| world := log (Ffprobe p) (world f); deferred := deferred f |})
              = w') in H
  | finish (bind (if bool_decide ?P then _ else _) _ _) = _ => go_guard P H
  | finish (bind (bind (respondWithError ?code ?msg) _) _ ?f) = ?w' =>
      let out := go_returned code msg f in change (finish out = w') in H
  | finish (bind (db_UpdateVideo ?E ?v) _ _) = _ =>
      go_known_or_split (db_UpdateVideo_err E v);
      first
        [ erewrite (step_db_UpdateVideo_ok E v) in H by eassumption
        | erewrite (step_db_UpdateVideo_err E v) in H by eassumption ]
  | finish (bind (os_CreateTemp_call ?E ?d ?p) _ _) = _ =>
      go_known_or_split (os_CreateTemp E d p);
      first
        [ erewrite (step_os_CreateTemp_ok E d p) in H by eassumption
        | erewrite (step_os_CreateTemp_err E d p) in H by eassumption ]
  | finish (bind (processVideoForFastStart ?E ?p) _ _) = _ =>
      go_known_or_split (ffmpeg E p);
      first
        [ erewrite (step_processVideo_ok E p) in H by eassumption
        | erewrite (step_processVideo_err E p) in H by eassumption ]
  | finish (bind (respondWithError ?code ?msg) _ ?f) = ?w' =>
      let out := go_returned code msg f in change (finish out = w') in H
  | finish (respondWithJSON ?code ?payload ?f) = ?w' =>
      change (finish
                (@pair Frame (option unit)
                   {| world := write_response
                                 {| status := code; body := VideoBody payload |}
                                 (world f);
                      deferred := deferred f |} (Some tt))
              = w') in H
  | finish ((let '(_, _) := ?o in _) _) = _ =>
      first
        [ match goal with Hx : o = _ |- _ => rewrite Hx in H end
        | let Ho := fresh "Hsign" in destruct o as [? [?|]] eqn:Ho ]
  | finish (match ?o with _ => _ end _) = _ => go_decide o H
  end.

Ltac go_exec H :=
  unfold handlerUploadVideo, Earlier.handlerUploadVideo, run,
    handlerUploadVideo_body, Earlier.handlerUploadVideo_body in H;
  repeat go_step H;
  cbv beta iota in H;
  rewrite finish_pair in H;
  cbn [world deferred] in H;
  rewrite ?run_deferred_cons, ?run_deferred_nil in H;
  rewrite ?run_deferred_call_remove, ?run_deferred_call_close in H.

(** Start the symbolic execution of [handlerUploadVideo E r w], naming its
    final world. *)
Ltac go_run w' H :=
  match goal with
  | |- context [handlerUploadVideo ?E ?r ?w] =>
      remember (handlerUploadVideo E r w) as w' eqn:H;
      symmetry in H; go_exec H; subst w'
  | |- context [Earlier.handlerUploadVideo ?E ?r ?w] =>
      remember (Earlier.handlerUploadVideo E r w) as w' eqn:H;
      symmetry in H; go_exec H; subst w'
  end.

Ltac calls_norm :=
  unfold calls_since; cbn [calls log os_Remove create_file store_video write_response];
  rewrite <- ?app_assoc; cbn [app]; rewrite ?drop_app_length, ?drop_all.

(** ** Authorization *)

(** C6: a request for a record whose owner is not the identity resolved
    from the bearer credential is answered 401 and makes no object-store
    write and no metadata update. *)
Theorem C6_not_owner_rejected E r w videoID token userID video :
  uuid_Parse E (PathValue_videoID r) = Ok videoID ->
  auth_GetBearerToken E (Header r) = Ok token ->
  auth_ValidateJWT E token (jwtSecret E) = Ok userID ->
  videos w !! videoID = Some video ->
  UserID video ≠ userID ->
  let w' := handlerUploadVideo E r w in
  response w' = Some {| status := 401; body := ErrorBody "Video is not yours!" |} /\
  count_calls is_S3PutObject (calls_since w w') = 0%nat /\
  count_calls is_DbUpdateVideo (calls_since w w') = 0%nat /\
  videos w' = videos w.
Proof.
  intros Hid Htok Hjwt Hget Hown w'. subst w'.
  go_run w' H.
  calls_norm. repeat split; reflexivity.
Qed.

Lemma C6_not_owner_rejected_witness :
  let w' := handlerUploadVideo sampleEnv strangerRequest sampleWorld in
  response w' = Some {| status := 401; body := ErrorBody "Video is not yours!" |} /\
  count_calls is_S3PutObject (calls_since sampleWorld w') = 0%nat /\
  count_calls is_DbUpdateVideo (calls_since sampleWorld w') = 0%nat /\
  videos w' = videos sampleWorld.
Proof.
  apply (C6_not_owner_rejected sampleEnv strangerRequest sampleWorld
           "v1" "mallory" "mallory" sampleVideo);
    [reflexivity | reflexivity | reflexivity | vm_compute; reflexivity | discriminate].
Defined.

(** ** Validation of the content type *)

(** C8: a request that does not declare exactly video/mp4 is rejected
    before any temporary file is created: no [os.CreateTemp] call is made
    and the disk is untouched, the answer is an error (400, 401 or 500),
    and once the request has passed authorization and form parsing that
    error is the client-fault 400. *)
Theorem C8_wrong_media_type_rejected E r w :
  (forall file, FormFile_video r = Ok file ->
                mime_ParseMediaType E (contentTypeHeader file) <> Ok "video/mp4") ->
  let w' := handlerUploadVideo E r w in
  count_calls is_OsCreateTemp (calls_since w w') = 0%nat /\
  files w' = files w /\
  (exists code msg,
      response w' = Some {| status := code; body := ErrorBody msg |} /\
      (code = 400 \/ code = 401 \/ code = 500)) /\
  (forall videoID token userID video file,
      uuid_Parse E (PathValue_videoID r) = Ok videoID ->
      auth_GetBearerToken E (Header r) = Ok token ->
      auth_ValidateJWT E token (jwtSecret E) = Ok userID ->
      videos w !! videoID = Some video ->
      UserID video = userID ->
      ParseMultipartForm r = None ->
      FormFile_video r = Ok file ->
      exists msg,
        response w' = Some {| status := 400; body := ErrorBody msg |}).
Proof.
  intros Htype w'. subst w'.
  go_run w' H.
  all: try (exfalso; eapply Htype; [reflexivity | subst; eassumption]).
  all: calls_norm; (split; [reflexivity|]); (split; [reflexivity|]);
    (split; [eexists _, _; split; [reflexivity | lia]|]).
  all: intros videoID token userID video file; intros;
    first [congruence | simplify_eq; eauto].
Qed.

Lemma C8_wrong_media_type_rejected_witness :
  let w' := handlerUploadVideo sampleEnv wrongTypeRequest sampleWorld in
  count_calls is_OsCreateTemp (calls_since sampleWorld w') = 0%nat /\
  files w' = files sampleWorld /\
  exists msg, response w' = Some {| status := 400; body := ErrorBody msg |}.
Proof.
  assert (Htype : forall file, FormFile_video wrongTypeRequest = Ok file ->
            mime_ParseMediaType sampleEnv (contentTypeHeader file) <> Ok "video/mp4").
  { intros file [= <-]. discriminate. }
  destruct (C8_wrong_media_type_rejected sampleEnv wrongTypeRequest sampleWorld Htype)
    as (Hcalls & Hfiles & _ & Hstatus).
  split; [exact Hcalls|]. split; [exact Hfiles|].
  apply (Hstatus "v1" "alice" "alice" sampleVideo
           {| fileBytes := "png bytes"; contentTypeHeader := "image/png" |});
    first [reflexivity | vm_compute; reflexivity].
Defined.

(** ** Order of remuxing and probing *)

Lemma append_nonempty_neq (s t : string) : t <> "" -> s +:+ t <> s.
Proof.
  intros Ht. induction s as [|c s IH]; simpl.
  - exact Ht.
  - intros [= Heq]. exact (IH Heq).
Qed.

Lemma processing_path_neq (tempFile : string) :
  tempFile +:+ ".processing" <> tempFile.
Proof. apply append_nonempty_neq. discriminate. Qed.

(** C5: whenever the handler probes a file, that file is the output of a
    successful remux of the staged temp file, made earlier in the same
    run, and it is not the staged file itself; and the key of every
    object-store write is built from the orientation of the first stream
    probed in that remuxed file. *)
Theorem C5_remux_before_probe E r w :
  let w' := handlerUploadVideo E r w in
  let tr := calls_since w w' in
  (forall (i : nat) filePath,
      tr !! i = Some (Ffprobe filePath) ->
      exists tempFile (j : nat),
        os_CreateTemp E "" "tubely-upload.mp4" = Ok tempFile /\
        ffmpeg E tempFile = None /\
        filePath = tempFile +:+ ".processing" /\
        filePath <> tempFile /\
        (j < i)%nat /\
        tr !! j = Some (Ffmpeg tempFile filePath)) /\
  (forall bucket key bodyFile contentType,
      S3PutObject bucket key bodyFile contentType ∈ tr ->
      exists tempFile stream0 streams,
        os_CreateTemp E "" "tubely-upload.mp4" = Ok tempFile /\
        ffprobe E (tempFile +:+ ".processing") = ProbeStreams (stream0 :: streams) /\
        key = path_Join E
                (directoryFor (aspectRatio (Width stream0) (Height stream0)))
                (getAssetPath E contentType) /\
        bodyFile = tempFile +:+ ".processing").
Proof.
  intros w' tr. subst tr w'.
  go_run w' H.
  all: calls_norm; split.
  all: try (intros i filePath Hi;
            repeat (destruct i as [|i]; simplify_eq/=);
            eexists _, 4%nat;
            repeat split; eauto using processing_path_neq; lia).
  all: intros bucket key bodyFile contentType Hin;
    repeat (apply elem_of_cons in Hin as [Hin|Hin]; [simplify_eq|]);
    try (apply elem_of_nil in Hin; destruct Hin).
  all: eexists _, _, _; repeat split; eauto.
Qed.

Lemma C5_remux_before_probe_witness :
  let tr := calls_since sampleWorld
              (handlerUploadVideo sampleEnv sampleRequest sampleWorld) in
  exists tempFile (j : nat),
    os_CreateTemp sampleEnv "" "tubely-upload.mp4" = Ok tempFile /\
    ffmpeg sampleEnv tempFile = None /\
    "/tmp/tubely-upload.mp41234.processing" = tempFile +:+ ".processing" /\
    "/tmp/tubely-upload.mp41234.processing" <> tempFile /\
    (j < 5)%nat /\
    tr !! j = Some (Ffmpeg tempFile "/tmp/tubely-upload.mp41234.processing").
Proof.
  apply (proj1 (C5_remux_before_probe sampleEnv sampleRequest sampleWorld)
           5%nat "/tmp/tubely-upload.mp41234.processing").
  vm_compute. reflexivity.
Defined.

(** ** The signing conversion *)

Lemma dbVideoToSignedVideo_ok E video signedVideo :
  dbVideoToSignedVideo E video = (signedVideo, None) ->
  VideoURL video = None /\ signedVideo = video \/
  exists videoURL bucket key presignedURL,
    VideoURL video = Some videoURL /\
    decodeReference videoURL = Ok (bucket, key) /\
    s3_PresignGetObject E bucket key (minute * 5) = Ok presignedURL /\
    signedVideo = set_VideoURL video presignedURL.
Proof.
  unfold dbVideoToSignedVideo, generatePresignedURL.
  destruct (VideoURL video) as [videoURL|]; [|intros [= <-]; left; done].
  destruct (decodeReference videoURL) as [[bucket key]|err] eqn:Hdec; [|discriminate].
  destruct (s3_PresignGetObject E bucket key (minute * 5)) as [url|err] eqn:Hsign;
    [|discriminate].
  intros [= <-]. right. exists videoURL, bucket, key, url. repeat split; assumption.
Qed.

(** C10: a record with no stored reference is returned unchanged and
    without error; and whenever the conversion returns an error (the
    reference does not decode, or signing fails) it returns the input
    record unchanged next to it. *)
Theorem C10_signing_conversion_failures E video :
  (VideoURL video = None -> dbVideoToSignedVideo E video = (video, None)) /\
  (forall err,
      snd (dbVideoToSignedVideo E video) = Some err ->
      fst (dbVideoToSignedVideo E video) = video) /\
  (forall videoURL err,
      VideoURL video = Some videoURL ->
      decodeReference videoURL = Err err ->
      dbVideoToSignedVideo E video = (video, Some err)) /\
  (forall videoURL bucket key err,
      VideoURL video = Some videoURL ->
      decodeReference videoURL = Ok (bucket, key) ->
      s3_PresignGetObject E bucket key (minute * 5) = Err err ->
      exists msg, dbVideoToSignedVideo E video = (video, Some msg)).
Proof.
  unfold dbVideoToSignedVideo, generatePresignedURL.
  split; [|split; [|split]].
  - intros ->. reflexivity.
  - intros err.
    destruct (VideoURL video) as [videoURL|]; [|reflexivity].
    destruct (decodeReference videoURL) as [[bucket key]|e]; [|reflexivity].
    destruct (s3_PresignGetObject E bucket key (minute * 5)); [discriminate|reflexivity].
  - intros videoURL err -> ->. reflexivity.
  - intros videoURL bucket key err -> -> ->. eauto.
Qed.

Lemma C10_signing_conversion_failures_witness :
  dbVideoToSignedVideo sampleEnv sampleVideo = (sampleVideo, None) /\
  dbVideoToSignedVideo sampleEnv (set_VideoURL sampleVideo "onlyonepart")
  = (set_VideoURL sampleVideo "onlyonepart", Some "error: invalid video url") /\
  exists msg,
    dbVideoToSignedVideo signFailEnv (set_VideoURL sampleVideo "bucket1,a/b/c")
    = (set_VideoURL sampleVideo "bucket1,a/b/c", Some msg).
Proof.
  split; [|split].
  - apply (proj1 (C10_signing_conversion_failures sampleEnv sampleVideo)).
    reflexivity.
  - apply (proj1 (proj2 (proj2 (C10_signing_conversion_failures sampleEnv
             (set_VideoURL sampleVideo "onlyonepart"))))
             "onlyonepart"); reflexivity.
  - apply (proj2 (proj2 (proj2 (C10_signing_conversion_failures signFailEnv
             (set_VideoURL sampleVideo "bucket1,a/b/c"))))
             "bucket1,a/b/c" "bucket1" "a/b/c" "presign failed"); reflexivity.
Defined.

(** ** The persisted reference and the response *)

(** C9: when the upload succeeds (status 200), the record persisted in the
    metadata store carries the encoded (bucket, key) reference of the
    object that was written, and the response payload is that record with
    only the reference replaced by the URL signed for the decoded
    reference; the store still holds the encoded form when the handler
    has returned. *)
Theorem C9_persisted_reference_stays_encoded E r w payload :
  let w' := handlerUploadVideo E r w in
  response w' = Some {| status := 200; body := payload |} ->
  exists video key bodyFile contentType signedURL bucket' key',
    S3PutObject (s3Bucket E) key bodyFile contentType ∈ calls_since w w' /\
    DbUpdateVideo (set_VideoURL video (encodeReference (s3Bucket E) key))
      ∈ calls_since w w' /\
    videos w' !! ID video
      = Some (set_VideoURL video (encodeReference (s3Bucket E) key)) /\
    decodeReference (encodeReference (s3Bucket E) key) = Ok (bucket', key') /\
    s3_PresignGetObject E bucket' key' (minute * 5) = Ok signedURL /\
    payload = VideoBody (set_VideoURL video signedURL).
Proof.
  intros w'. subst w'.
  go_run w' H.
  all: cbn [response os_Remove log write_response]; try discriminate.
  intros [= <-].
  apply dbVideoToSignedVideo_ok in Hsign as [[Hnone _]|Hsome]; [discriminate Hnone|].
  destruct Hsome as (videoURL & bucket' & key' & signedURL & [= <-] & Hdec & Hurl & ->).
  eexists v, _, _, _, signedURL, bucket', key'.
  calls_norm.
  split; [eapply (list_elem_of_lookup_2 _ 7%nat); reflexivity|].
  split; [eapply (list_elem_of_lookup_2 _ 8%nat); reflexivity|].
  split; [|split; [exact Hdec|split; [exact Hurl|reflexivity]]].
  cbn [videos os_Remove log write_response store_video ID set_VideoURL].
  apply lookup_insert_eq.
Qed.

Lemma C9_persisted_reference_stays_encoded_witness :
  let w' := handlerUploadVideo sampleEnv sampleRequest sampleWorld in
  exists video key bodyFile contentType signedURL bucket' key',
    S3PutObject (s3Bucket sampleEnv) key bodyFile contentType
      ∈ calls_since sampleWorld w' /\
    DbUpdateVideo (set_VideoURL video (encodeReference (s3Bucket sampleEnv) key))
      ∈ calls_since sampleWorld w' /\
    videos w' !! ID video
      = Some (set_VideoURL video (encodeReference (s3Bucket sampleEnv) key)) /\
    decodeReference (encodeReference (s3Bucket sampleEnv) key) = Ok (bucket', key') /\
    s3_PresignGetObject sampleEnv bucket' key' (minute * 5) = Ok signedURL /\
    VideoBody
      (set_VideoURL sampleVideo
         "https://tubely-bucket.s3.amazonaws.com/landscape/abc.mp4?X-Amz-Signature=abc")
    = VideoBody (set_VideoURL video signedURL).
Proof.
  apply (C9_persisted_reference_stays_encoded sampleEnv sampleRequest sampleWorld).
  vm_compute. reflexivity.
Defined.

(** ** Cleanup of the request's files *)

Lemma not_elem_of_remove (X : gset string) (x : string) : x ∉ X ∖ {[ x ]}.
Proof.
  rewrite elem_of_difference, elem_of_singleton. intros [_ Hx]. exact (Hx eq_refl).
Qed.

Lemma elem_of_remove_other (X : gset string) (x y : string) :
  x <> y -> x ∈ X -> x ∈ X ∖ {[ y ]}.
Proof.
  intros Hne Hx. rewrite elem_of_difference, elem_of_singleton. split; assumption.
Qed.

Lemma elem_of_create (X : gset string) (x : string) : x ∈ {[ x ]} ∪ X.
Proof. rewrite elem_of_union, elem_of_singleton. left. reflexivity. Qed.

(** The staged temp file: on every path on which [os.CreateTemp] was
    reached and succeeded, the file is gone when the handler returns. *)
Lemma staged_file_removed E r w tempFile :
  os_CreateTemp E "" "tubely-upload.mp4" = Ok tempFile ->
  let w' := handlerUploadVideo E r w in
  OsCreateTemp "" "tubely-upload.mp4" ∈ calls_since w w' ->
  tempFile ∉ files w'.
Proof.
  intros Htemp w'. subst w'.
  go_run w' H.
  all: calls_norm; intros Hin.
  all: try (repeat (apply elem_of_cons in Hin as [Hin|Hin]; [discriminate Hin|]);
            apply elem_of_nil in Hin; destruct Hin).
  all: cbn [files os_Remove log write_response create_file store_video].
  all: apply not_elem_of_remove.
Qed.

(** C1 fails on the code: the removal of the remux output is deferred only
    after the probe and [os.Open] have succeeded.  When the remux succeeds
    and the probe of its output fails, the handler answers 500 and
    returns with the staged file removed but the remux output still on
    disk, no [os.Remove] having been issued for it. *)
Theorem C1_remux_output_left_on_probe_failure E r w tempFile :
  os_CreateTemp E "" "tubely-upload.mp4" = Ok tempFile ->
  ffmpeg E tempFile = None ->
  (forall stream0 streams,
      ffprobe E (tempFile +:+ ".processing") <> ProbeStreams (stream0 :: streams)) ->
  let w' := handlerUploadVideo E r w in
  Ffprobe (tempFile +:+ ".processing") ∈ calls_since w w' ->
  response w'
    = Some {| status := 500; body := ErrorBody "Error determining aspect ratio" |} /\
  (tempFile ∉ files w') /\
  ((tempFile +:+ ".processing") ∈ files w') /\
  OsRemove (tempFile +:+ ".processing") ∉ calls_since w w'.
Proof.
  intros Htemp Hremux Hprobe w'. subst w'.
  go_run w' H.
  all: calls_norm; intros Hin.
  all: try (repeat (apply elem_of_cons in Hin as [Hin|Hin]; [discriminate Hin|]);
            apply elem_of_nil in Hin; destruct Hin).
  all: try (exfalso; eapply Hprobe; first [eassumption | reflexivity]).
  all: cbn [response files os_Remove log write_response create_file store_video].
  all: pose proof (processing_path_neq tempFile) as Hneq.
  all: split; [reflexivity|]; split; [apply not_elem_of_remove|];
    split; [apply elem_of_remove_other; [exact Hneq | apply elem_of_create]|].
  all: intros Hrm;
    repeat (apply elem_of_cons in Hrm as [Hrm|Hrm];
            [first [discriminate Hrm | injection Hrm as Hrm; contradiction]|]);
    apply elem_of_nil in Hrm; destruct Hrm.
Qed.

Lemma C1_remux_output_left_on_probe_failure_witness :
  let w' := handlerUploadVideo probeFailEnv sampleRequest sampleWorld in
  response w'
    = Some {| status := 500; body := ErrorBody "Error determining aspect ratio" |} /\
  ("/tmp/tubely-upload.mp41234" ∉ files w') /\
  ("/tmp/tubely-upload.mp41234.processing" ∈ files w') /\
  OsRemove "/tmp/tubely-upload.mp41234.processing" ∉ calls_since sampleWorld w'.
Proof.
  apply (C1_remux_output_left_on_probe_failure probeFailEnv sampleRequest sampleWorld
           "/tmp/tubely-upload.mp41234").
  - reflexivity.
  - reflexivity.
  - intros stream0 streams. discriminate.
  - apply (list_elem_of_lookup_2 _ 5%nat). vm_compute. reflexivity.
Defined.

(** ** The earlier revision

    The authorization and content-type checks are those of the later
    revision; the probe, however, reads the staged file, and no remux is
    run. *)

(** X25: in the earlier revision too, a request for a record owned by
    someone else is answered 401 with no object-store write and no
    metadata update. *)
Lemma earlier_not_owner_rejected E r w videoID token userID video :
  uuid_Parse E (PathValue_videoID r) = Ok videoID ->
  auth_GetBearerToken E (Header r) = Ok token ->
  auth_ValidateJWT E token (jwtSecret E) = Ok userID ->
  videos w !! videoID = Some video ->
  UserID video ≠ userID ->
  let w' := Earlier.handlerUploadVideo E r w in
  response w' = Some {| status := 401; body := ErrorBody "Video is not yours!" |} /\
  count_calls is_S3PutObject (calls_since w w') = 0%nat /\
  count_calls is_DbUpdateVideo (calls_since w w') = 0%nat /\
  videos w' = videos w.
Proof.
  intros Hid Htok Hjwt Hget Hown w'. subst w'.
  go_run w' H.
  calls_norm. repeat split; reflexivity.
Qed.

(** X26: in the earlier revision too, a request that does not declare
    exactly video/mp4 gets an error answer with no temp file created and
    the disk untouched. *)
Lemma earlier_wrong_media_type_rejected E r w :
  (forall file, FormFile_video r = Ok file ->
                mime_ParseMediaType E (contentTypeHeader file) <> Ok "video/mp4") ->
  let w' := Earlier.handlerUploadVideo E r w in
  count_calls is_OsCreateTemp (calls_since w w') = 0%nat /\
  files w' = files w /\
  (exists code msg,
      response w' = Some {| status := code; body := ErrorBody msg |}).
Proof.
  intros Htype w'. subst w'.
  go_run w' H.
  all: try (exfalso; eapply Htype; [reflexivity | subst; eassumption]).
  all: calls_norm; (split; [reflexivity|]); (split; [reflexivity|]); eauto.
Qed.

(** X27: the earlier revision probes the staged file itself: every
    ffprobe call is on the temp file handed out by [os.CreateTemp], and no
    run calls ffmpeg. *)
Lemma earlier_probes_staged_file E r w :
  let tr := calls_since w (Earlier.handlerUploadVideo E r w) in
  (forall filePath, Ffprobe filePath ∈ tr ->
                    os_CreateTemp E "" "tubely-upload.mp4" = Ok filePath) /\
  (forall input output, Ffmpeg input output ∉ tr).
Proof.
  intros tr. subst tr.
  go_run w' H.
  all: calls_norm; split.
  all: try (intros filePath Hin;
            repeat (apply elem_of_cons in Hin as [Hin|Hin]; [simplify_eq|]);
            try (apply elem_of_nil in Hin; destruct Hin);
            first [assumption | reflexivity]).
  all: intros input output Hin;
    repeat (apply elem_of_cons in Hin as [Hin|Hin]; [discriminate Hin|]);
    apply elem_of_nil in Hin; destruct Hin.
Qed.

(** * Further properties of the code *)

(** ** The classifier under transposition and without division *)

Lemma portrait_check_transpose width height :
  portrait_check width height = landscape_check height width.
Proof. reflexivity. Qed.

(** X1: swapping width and height swaps the orientation.  A Portrait pair
    becomes Landscape, an Other pair stays Other, and a Landscape pair
    becomes Portrait unless the swapped pair passes the Landscape check
    too, which among non-negative ints happens for (0,0) and (1,1)
    only. *)
Theorem X1_transpose_swaps_orientation width height :
  (aspectRatio width height = "9:16" -> aspectRatio height width = "16:9") /\
  (aspectRatio width height = "other" <-> aspectRatio height width = "other") /\
  (aspectRatio width height = "16:9" ->
   aspectRatio height width = "9:16" \/
   (aspectRatio height width = "16:9" /\ portrait_check width height = true)) /\
  (0 <= width <= GoInt.max_int -> 0 <= height <= GoInt.max_int ->
   aspectRatio width height = "16:9" ->
   (width, height) <> (0, 0) -> (width, height) <> (1, 1) ->
   aspectRatio height width = "9:16").
Proof.
  assert (Hcore :
    aspectRatio width height = "16:9" ->
    aspectRatio height width = "9:16" \/
    (aspectRatio height width = "16:9" /\ portrait_check width height = true)).
  { unfold aspectRatio. rewrite !portrait_check_transpose.
    destruct (landscape_check width height) eqn:Hl; [|
      destruct (landscape_check height width); discriminate].
    intros _. destruct (landscape_check height width); [right|left]; done. }
  split; [|split; [|split]].
  - unfold aspectRatio. rewrite !portrait_check_transpose.
    destruct (landscape_check width height); [discriminate|].
    destruct (landscape_check height width); [reflexivity|discriminate].
  - unfold aspectRatio. rewrite !portrait_check_transpose.
    destruct (landscape_check width height), (landscape_check height width);
      split; (discriminate || reflexivity).
  - exact Hcore.
  - intros Hw Hh Hl Hne0 Hne1.
    destruct (Hcore Hl) as [Hp|[_ Hp]]; [exact Hp|].
    exfalso.
    assert (Hl' : landscape_check width height = true).
    { unfold aspectRatio in Hl. destruct (landscape_check width height); [done|].
      destruct (portrait_check width height); discriminate. }
    destruct (both_checks_small width height Hw Hh Hl' Hp) as [Ew Eh].
    pose proof (Z.mul_div_le (16 * height) 9 ltac:(lia)).
    pose proof (Z.mul_succ_div_gt (16 * height) 9 ltac:(lia)).
    pose proof (Z.mul_div_le (16 * width) 9 ltac:(lia)).
    pose proof (Z.mul_succ_div_gt (16 * width) 9 ltac:(lia)).
    assert (Hcases : (width = 0 /\ height = 0) \/ (width = 1 /\ height = 1)) by lia.
    destruct Hcases as [[-> ->]|[-> ->]]; [apply Hne0 | apply Hne1]; reflexivity.
Qed.

(** X2: without division.  For non-negative dimensions whose products by
    16 fit the int, a pair is Landscape exactly when
    [0 <= 16*height - 9*width <= 8], and Portrait exactly when it is not
    Landscape and [0 <= 16*width - 9*height <= 8]; so for a height that is
    a multiple of 9 only the exact 16:9 width is Landscape. *)
Theorem X2_classifier_by_bounds width height :
  0 <= width -> 0 <= height ->
  16 * width <= GoInt.max_int -> 16 * height <= GoInt.max_int ->
  (aspectRatio width height = "16:9" <-> 0 <= 16 * height - 9 * width <= 8) /\
  (aspectRatio width height = "9:16" <->
     ~ (0 <= 16 * height - 9 * width <= 8) /\ 0 <= 16 * width - 9 * height <= 8) /\
  (forall n, height = 9 * n ->
             (aspectRatio width height = "16:9" <-> width = 16 * n)).
Proof.
  intros Hw Hh Hmw Hmh.
  pose proof (landscape_check_spec width height Hh Hmh) as HL.
  pose proof (portrait_check_spec width height Hw Hmw) as HP.
  unfold spec_landscape in HL. unfold spec_portrait in HP.
  pose proof (Z.mul_div_le (16 * height) 9 ltac:(lia)).
  pose proof (Z.mul_succ_div_gt (16 * height) 9 ltac:(lia)).
  pose proof (Z.mul_div_le (16 * width) 9 ltac:(lia)).
  pose proof (Z.mul_succ_div_gt (16 * width) 9 ltac:(lia)).
  assert (HLb : landscape_check width height = true <->
                0 <= 16 * height - 9 * width <= 8) by (rewrite HL; lia).
  assert (HPb : portrait_check width height = true <->
                0 <= 16 * width - 9 * height <= 8) by (rewrite HP; lia).
  assert (H16 : aspectRatio width height = "16:9" <->
                0 <= 16 * height - 9 * width <= 8).
  { rewrite <- HLb. unfold aspectRatio.
    destruct (landscape_check width height); [done|].
    destruct (portrait_check width height); split; discriminate. }
  split; [exact H16|]. split.
  - rewrite <- HLb, <- HPb. unfold aspectRatio.
    destruct (landscape_check width height).
    + split; [discriminate|]. intros [Hn _]. destruct Hn; reflexivity.
    + destruct (portrait_check width height).
      * split; [intros _; split; [discriminate|reflexivity] | reflexivity].
      * split; [discriminate | intros [_ Hp]; discriminate Hp].
  - intros n ->. rewrite H16. lia.
Qed.

Lemma X2_classifier_by_bounds_witness :
  (aspectRatio 1280 720 = "16:9" <-> 0 <= 16 * 720 - 9 * 1280 <= 8) /\
  (aspectRatio 1280 720 = "9:16" <->
     ~ (0 <= 16 * 720 - 9 * 1280 <= 8) /\ 0 <= 16 * 1280 - 9 * 720 <= 8) /\
  (forall n, 720 = 9 * n -> (aspectRatio 1280 720 = "16:9" <-> 1280 = 16 * n)).
Proof.
  apply (X2_classifier_by_bounds 1280 720); unfold GoInt.max_int; lia.
Defined.

(** ** From the classifier to the storage directory *)


(** ** The codec on arbitrary components *)

Lemma before_sep_fixed s : before_sep s = s -> contains_sep s = false.
Proof.
  induction s as [|c rest IH]; [reflexivity|].
  simpl. destruct (Ascii.eqb c comma); simpl; [discriminate|].
  intros [= Heq]. exact (IH Heq).
Qed.

Lemma before_sep_append s t :
  before_sep (s +:+ String comma t) = before_sep s.
Proof.
  induction s as [|c rest IH]; simpl; [reflexivity|].
  destruct (Ascii.eqb c comma); [reflexivity|]. rewrite IH. reflexivity.
Qed.

Lemma after_sep_append s t :
  after_sep (s +:+ String comma t) =
  if contains_sep s then after_sep s +:+ String comma t else t.
Proof.
  induction s as [|c rest IH]; simpl; [reflexivity|].
  destruct (Ascii.eqb c comma); [reflexivity|]. exact IH.
Qed.

Lemma contains_sep_append s t : contains_sep (s +:+ String comma t) = true.
Proof.
  induction s as [|c rest IH]; simpl; [reflexivity|].
  rewrite IH. apply orb_true_r.
Qed.

Lemma decodeReference_encodeReference bucket key :
  decodeReference (encodeReference bucket key)
  = Ok (before_sep bucket,
        if contains_sep bucket then before_sep (after_sep bucket)
        else before_sep key).
Proof.
  rewrite decodeReference_first. unfold encodeReference.
  change ("," +:+ key) with (String comma key).
  rewrite contains_sep_append, before_sep_append, after_sep_append.
  destruct (contains_sep bucket); [|reflexivity].
  rewrite before_sep_append. reflexivity.
Qed.

(** X4: decoding what the handler encodes never fails, whatever the bucket
    and key: the container is the bucket up to its first comma, and the key
    is the key up to its first comma (or, when the bucket holds a comma,
    the bucket's text after that comma up to the next one, the key being
    lost).  Hence the pair comes back unchanged exactly when neither
    component holds a comma. *)
Theorem X4_decode_of_encode bucket key :
  decodeReference (encodeReference bucket key)
  = Ok (before_sep bucket,
        if contains_sep bucket then before_sep (after_sep bucket)
        else before_sep key) /\
  (decodeReference (encodeReference bucket key) = Ok (bucket, key) <->
   contains_sep bucket = false /\ contains_sep key = false).
Proof.
  pose proof (decodeReference_encodeReference bucket key) as Hdec.
  split; [exact Hdec|].
  rewrite Hdec. split.
  - intros [= Hb Hk]. apply before_sep_fixed in Hb. rewrite Hb in Hk.
    split; [exact Hb | exact (before_sep_fixed _ Hk)].
  - intros [Hb Hk]. rewrite Hb, (before_sep_id _ Hb), (before_sep_id _ Hk).
    reflexivity.
Qed.

(** ** Signing a stored reference *)

(** X5: for a record whose stored reference holds a comma, if the presign
    call for its first two components, with a five-minute expiry,
    succeeds, the conversion returns the record with only the reference
    replaced by the signed URL and no error.  Converting that result again
    fails with the invalid-reference error when the signed URL holds no
    comma: the conversion is meant for stored references only. *)
Theorem X5_signing_success E video videoURL signedURL :
  VideoURL video = Some videoURL ->
  contains_sep videoURL = true ->
  s3_PresignGetObject E (before_sep videoURL) (before_sep (after_sep videoURL))
    300000000000 = Ok signedURL ->
  dbVideoToSignedVideo E video
  = ({| ID := ID video; UserID := UserID video; VideoURL := Some signedURL |}, None) /\
  (contains_sep signedURL = false ->
   dbVideoToSignedVideo E (fst (dbVideoToSignedVideo E video))
   = (fst (dbVideoToSignedVideo E video), Some "error: invalid video url")).
Proof.
  intros Hurl Hsep Hsign.
  assert (Hfirst : dbVideoToSignedVideo E video
                   = (set_VideoURL video signedURL, None)).
  { unfold dbVideoToSignedVideo, generatePresignedURL.
    rewrite Hurl, decodeReference_first, Hsep.
    change (minute * 5) with 300000000000. rewrite Hsign. reflexivity. }
  split; [exact Hfirst|].
  intros Hplain. rewrite Hfirst. cbn [fst].
  unfold dbVideoToSignedVideo. cbn [VideoURL set_VideoURL].
  rewrite decodeReference_first, Hplain. reflexivity.
Qed.

Lemma X5_signing_success_witness :
  dbVideoToSignedVideo sampleEnv (set_VideoURL sampleVideo "tubely-bucket,landscape/abc.mp4")
  = ({| ID := "v1"; UserID := "alice";
        VideoURL := Some "https://tubely-bucket.s3.amazonaws.com/landscape/abc.mp4?X-Amz-Signature=abc" |},
     None).
Proof.
  apply (X5_signing_success sampleEnv
           (set_VideoURL sampleVideo "tubely-bucket,landscape/abc.mp4")
           "tubely-bucket,landscape/abc.mp4"); reflexivity.
Defined.

(** ** What every run of the handler does *)

Ltac world_norm :=
  cbn [files videos calls response os_Remove log write_response create_file store_video].

(** X6: every run answers.  On each exit path the handler has written a
    response; its status is 200 with the record as body, or 400, 401 or
    500 with an error message as body. *)
Theorem X6_handler_always_responds E r w :
  exists code payload,
    response (handlerUploadVideo E r w) = Some {| status := code; body := payload |} /\
    ((code = 200 /\ exists video, payload = VideoBody video) \/
     ((code = 400 \/ code = 401 \/ code = 500) /\ exists msg, payload = ErrorBody msg)).
Proof.
  go_run w' H.
  all: world_norm; eexists _, _; (split; [reflexivity|]).
  all: first [ left; split; [reflexivity | eexists; reflexivity]
             | right; split; [lia | eexists; reflexivity] ].
Qed.

(** X7: a request that does not authenticate (malformed video id, no
    bearer token, or a token that does not validate) is answered before
    anything is looked up: no collaborator is called, disk and store are
    untouched, and the status is 400 exactly when the id is malformed and
    401 otherwise.  The id is checked first, so a malformed id is a 400
    even without credentials. *)
Theorem X7_unauthenticated_makes_no_call E r w :
  (forall videoID token userID,
      uuid_Parse E (PathValue_videoID r) = Ok videoID ->
      auth_GetBearerToken E (Header r) = Ok token ->
      auth_ValidateJWT E token (jwtSecret E) = Ok userID -> False) ->
  let w' := handlerUploadVideo E r w in
  calls_since w w' = [] /\ files w' = files w /\ videos w' = videos w /\
  exists code msg,
    response w' = Some {| status := code; body := ErrorBody msg |} /\
    (code = 400 \/ code = 401) /\
    (code = 400 <-> exists err, uuid_Parse E (PathValue_videoID r) = Err err).
Proof.
  intros Hno w'. subst w'.
  go_run w' H.
  all: try (exfalso; eapply Hno; first [reflexivity | eassumption]).
  all: calls_norm; world_norm; repeat (split; [reflexivity|]).
  all: eexists _, _; split; [reflexivity|]; split; [lia|].
  all: split; [intros ?; first [lia | eexists; reflexivity]
              | intros [? Herr]; first [reflexivity | discriminate Herr]].
Qed.

Lemma X7_unauthenticated_makes_no_call_witness :
  let w' := handlerUploadVideo noTokenEnv sampleRequest sampleWorld in
  calls_since sampleWorld w' = [] /\ files w' = files sampleWorld /\
  videos w' = videos sampleWorld /\
  exists code msg,
    response w' = Some {| status := code; body := ErrorBody msg |} /\
    (code = 400 \/ code = 401) /\
    (code = 400 <->
     exists err, uuid_Parse noTokenEnv (PathValue_videoID sampleRequest) = Err err).
Proof.
  apply (X7_unauthenticated_makes_no_call noTokenEnv sampleRequest sampleWorld).
  intros videoID token userID _ Htoken _. vm_compute in Htoken. discriminate Htoken.
Defined.

(** X8: an authenticated request for a record the store does not hold is
    answered 500 (not 404), after the one lookup and nothing else. *)
Theorem X8_missing_record_is_500 E r w videoID token userID :
  uuid_Parse E (PathValue_videoID r) = Ok videoID ->
  auth_GetBearerToken E (Header r) = Ok token ->
  auth_ValidateJWT E token (jwtSecret E) = Ok userID ->
  videos w !! videoID = None ->
  let w' := handlerUploadVideo E r w in
  response w' = Some {| status := 500;
                        body := ErrorBody "Failed to get video from database" |} /\
  calls_since w w' = [DbGetVideo videoID] /\
  files w' = files w /\ videos w' = videos w.
Proof.
  intros Hid Htok Hjwt Hget w'. subst w'.
  go_run w' H.
  calls_norm. world_norm. repeat split; reflexivity.
Qed.

Lemma X8_missing_record_is_500_witness :
  let w' := handlerUploadVideo sampleEnv missingRequest sampleWorld in
  response w' = Some {| status := 500;
                        body := ErrorBody "Failed to get video from database" |} /\
  calls_since sampleWorld w' = [DbGetVideo "v2"] /\
  files w' = files sampleWorld /\ videos w' = videos sampleWorld.
Proof.
  apply (X8_missing_record_is_500 sampleEnv missingRequest sampleWorld
           "v2" "alice" "alice");
    first [reflexivity | vm_compute; reflexivity].
Defined.

(** ** The handler's footprint on disk and in the store *)

(** X9: the handler leaves every other file alone.  A path that is neither
    the temp file handed out by [os.CreateTemp] nor that file's
    [.processing] companion is on disk after the run exactly when it was
    before. *)
Theorem X9_disk_frame E r w path :
  (forall tempFile,
      os_CreateTemp E "" "tubely-upload.mp4" = Ok tempFile ->
      path <> tempFile /\ path <> tempFile +:+ ".processing") ->
  path ∈ files (handlerUploadVideo E r w) <-> path ∈ files w.
Proof.
  intros Hpath.
  go_run w' H.
  all: world_norm; try reflexivity.
  all: destruct (Hpath _ eq_refl) as [Hne1 Hne2].
  all: rewrite ?elem_of_difference, ?elem_of_union, ?elem_of_singleton; tauto.
Qed.

Lemma X9_disk_frame_witness :
  "/tmp/other-upload" ∈ files (handlerUploadVideo sampleEnv sampleRequest sampleWorld)
  <-> "/tmp/other-upload" ∈ files sampleWorld.
Proof.
  apply (X9_disk_frame sampleEnv sampleRequest sampleWorld "/tmp/other-upload").
  intros tempFile [= <-]. split; discriminate.
Defined.

Lemma not_elem_of_remove_twice (X : gset string) (x y : string) :
  x ∉ (X ∖ {[ x ]}) ∖ {[ y ]}.
Proof.
  rewrite !elem_of_difference, elem_of_singleton. intros [[_ Hx] _]. exact (Hx eq_refl).
Qed.

(** X10: once the remuxed file has been opened, cleanup is complete.  On
    every path that reaches the object-store write (whether the write, the
    metadata update or the signing then fails, or all succeed) neither the
    staged file nor the remux output is on disk when the handler
    returns. *)
Theorem X10_files_removed_after_open E r w tempFile :
  os_CreateTemp E "" "tubely-upload.mp4" = Ok tempFile ->
  let w' := handlerUploadVideo E r w in
  count_calls is_S3PutObject (calls_since w w') <> 0%nat ->
  (tempFile ∉ files w') /\ ((tempFile +:+ ".processing") ∉ files w').
Proof.
  intros Htemp w'. subst w'.
  go_run w' H.
  all: calls_norm; cbn [count_calls List.filter is_S3PutObject length]; intros Hput;
    try (exfalso; apply Hput; reflexivity).
  all: world_norm; split; [apply not_elem_of_remove | apply not_elem_of_remove_twice].
Qed.

Lemma X10_files_removed_after_open_witness :
  let w' := handlerUploadVideo updateFailEnv sampleRequest sampleWorld in
  ("/tmp/tubely-upload.mp41234" ∉ files w') /\
  ("/tmp/tubely-upload.mp41234.processing" ∉ files w').
Proof.
  apply (X10_files_removed_after_open updateFailEnv sampleRequest sampleWorld
           "/tmp/tubely-upload.mp41234").
  - reflexivity.
  - vm_compute. discriminate.
Defined.


(** X12: the metadata update comes after the object write.  Every
    [UpdateVideo] call is preceded, in the same run, by a successful
    [PutObject] to the configured bucket with content type video/mp4, and
    the record it persists refers to exactly that bucket and key. *)
Theorem X12_update_only_after_store E r w :
  let tr := calls_since w (handlerUploadVideo E r w) in
  forall (i : nat) video,
    tr !! i = Some (DbUpdateVideo video) ->
    exists (j : nat) key bodyFile,
      (j < i)%nat /\
      tr !! j = Some (S3PutObject (s3Bucket E) key bodyFile "video/mp4") /\
      s3_PutObject E (s3Bucket E) key bodyFile "video/mp4" = None /\
      VideoURL video = Some (encodeReference (s3Bucket E) key).
Proof.
  intros tr. subst tr.
  go_run w' H.
  all: calls_norm; intros i video Hi.
  all: repeat (destruct i as [|i]; simplify_eq/=).
  all: eexists 7%nat, _, _; repeat split; eauto; lia.
Qed.

(** X13: nothing is retried.  In one run the handler looks the record up,
    creates a temp file, runs ffmpeg, runs ffprobe, writes to the object
    store and updates the metadata store at most once each. *)
Theorem X13_no_retries E r w :
  let tr := calls_since w (handlerUploadVideo E r w) in
  (count_calls is_DbGetVideo tr <= 1)%nat /\
  (count_calls is_OsCreateTemp tr <= 1)%nat /\
  (count_calls is_Ffmpeg tr <= 1)%nat /\
  (count_calls is_Ffprobe tr <= 1)%nat /\
  (count_calls is_S3PutObject tr <= 1)%nat /\
  (count_calls is_DbUpdateVideo tr <= 1)%nat.
Proof.
  intros tr. subst tr.
  go_run w' H.
  all: calls_norm; cbn; repeat split; lia.
Qed.

(** ** Failures late in the pipeline *)



Lemma dbVideoToSignedVideo_err_encoded E video bucket key signedVideo err :
  dbVideoToSignedVideo E (set_VideoURL video (encodeReference bucket key))
  = (signedVideo, Some err) ->
  exists bucket' key' cause,
    decodeReference (encodeReference bucket key) = Ok (bucket', key') /\
    s3_PresignGetObject E bucket' key' 300000000000 = Err cause.
Proof.
  unfold dbVideoToSignedVideo, generatePresignedURL. cbn [VideoURL set_VideoURL].
  rewrite decodeReference_encodeReference.
  change (minute * 5) with 300000000000.
  destruct (s3_PresignGetObject E _ _ 300000000000) as [url|cause] eqn:Hsign;
    [discriminate|].
  intros _. eexists _, _, cause. split; [reflexivity | exact Hsign].
Qed.

(** X15: a 500 can follow a completed upload.  When the handler answers
    "Couldn't sign video", the object has been written and the record has
    already been persisted with the encoded reference: the failure is that
    of the presign call for the decoded reference (decoding itself cannot
    fail here), and nothing is rolled back. *)
Theorem X15_sign_failure_after_persist E r w :
  let w' := handlerUploadVideo E r w in
  response w' = Some {| status := 500; body := ErrorBody "Couldn't sign video" |} ->
  exists video key bucket' key' cause,
    videos w' !! ID video
      = Some {| ID := ID video; UserID := UserID video;
                VideoURL := Some (encodeReference (s3Bucket E) key) |} /\
    count_calls is_S3PutObject (calls_since w w') = 1%nat /\
    count_calls is_DbUpdateVideo (calls_since w w') = 1%nat /\
    decodeReference (encodeReference (s3Bucket E) key) = Ok (bucket', key') /\
    s3_PresignGetObject E bucket' key' 300000000000 = Err cause.
Proof.
  intros w'. subst w'.
  go_run w' H.
  all: world_norm; try discriminate.
  intros _.
  apply dbVideoToSignedVideo_err_encoded in Hsign
    as (bucket' & key' & cause & Hdec & Hcause).
  eexists v, _, bucket', key', cause.
  calls_norm.
  split; [apply lookup_insert_eq|].
  split; [reflexivity|]. split; [reflexivity|].
  split; [exact Hdec | exact Hcause].
Qed.

Lemma X15_sign_failure_after_persist_witness :
  let w' := handlerUploadVideo signFailEnv sampleRequest sampleWorld in
  exists video key bucket' key' cause,
    videos w' !! ID video
      = Some {| ID := ID video; UserID := UserID video;
                VideoURL := Some (encodeReference (s3Bucket signFailEnv) key) |} /\
    count_calls is_S3PutObject (calls_since sampleWorld w') = 1%nat /\
    count_calls is_DbUpdateVideo (calls_since sampleWorld w') = 1%nat /\
    decodeReference (encodeReference (s3Bucket signFailEnv) key) = Ok (bucket', key') /\
    s3_PresignGetObject signFailEnv bucket' key' 300000000000 = Err cause.
Proof.
  apply (X15_sign_failure_after_persist signFailEnv sampleRequest sampleWorld).
  vm_compute. reflexivity.
Defined.

(** ** Order of the deferred calls *)

(** X16: deferred calls run last-registered first.  On every path on which
    the temp file was created, the run ends by closing the temp file, then
    removing it, then closing the uploaded form file. *)
Theorem X16_cleanup_order E r w tempFile :
  os_CreateTemp E "" "tubely-upload.mp4" = Ok tempFile ->
  let tr := calls_since w (handlerUploadVideo E r w) in
  count_calls is_OsCreateTemp tr <> 0%nat ->
  exists before,
    tr = (before ++ [FileClose tempFile; OsRemove tempFile;
                     FileClose multipartFile])%list.
Proof.
  intros Htemp tr. subst tr.
  go_run w' H.
  all: calls_norm; cbn [count_calls List.filter is_OsCreateTemp length]; intros Hmade;
    try (exfalso; apply Hmade; reflexivity).
  all: match goal with
       | |- exists before, ?l = _ => exists (take (length l - 3) l); reflexivity
       end.
Qed.

Lemma X16_cleanup_order_witness :
  let tr := calls_since sampleWorld
              (handlerUploadVideo probeFailEnv sampleRequest sampleWorld) in
  exists before,
    tr = (before ++ [FileClose "/tmp/tubely-upload.mp41234";
                     OsRemove "/tmp/tubely-upload.mp41234";
                     FileClose multipartFile])%list.
Proof.
  apply (X16_cleanup_order probeFailEnv sampleRequest sampleWorld
           "/tmp/tubely-upload.mp41234").
  - reflexivity.
  - vm_compute. discriminate.
Defined.

(** ** What is written to the object store *)

Lemma directoryFor_three s :
  directoryFor s = "landscape" \/ directoryFor s = "portrait" \/ directoryFor s = "other".
Proof.
  unfold directoryFor.
  destruct (String.eqb s "16:9"); [auto|].
  destruct (String.eqb s "9:16"); auto.
Qed.

(** X17: every object-store write goes to the configured bucket, with
    content type video/mp4, under a key that joins one of the directories
    landscape, portrait or other with the asset path generated for
    video/mp4. *)
Theorem X17_put_object_arguments E r w :
  let tr := calls_since w (handlerUploadVideo E r w) in
  forall bucket key bodyFile contentType,
    S3PutObject bucket key bodyFile contentType ∈ tr ->
    bucket = s3Bucket E /\ contentType = "video/mp4" /\
    exists directory,
      (directory = "landscape" \/ directory = "portrait" \/ directory = "other") /\
      key = path_Join E directory (getAssetPath E "video/mp4").
Proof.
  intros tr. subst tr.
  go_run w' H.
  all: calls_norm; intros bucket key bodyFile contentType Hin;
    repeat (apply elem_of_cons in Hin as [Hin|Hin]; [simplify_eq|]);
    try (apply elem_of_nil in Hin; destruct Hin).
  all: split; [reflexivity|]; split; [reflexivity|].
  all: eexists; split; [apply directoryFor_three | reflexivity].
Qed.

(** X18: a 200 means every step ran exactly once.  On a successful upload
    the run holds exactly one lookup, one temp-file creation, one ffmpeg
    run, one ffprobe run, one object write and one metadata update, and
    neither the staged file nor the remux output is left on disk. *)
Theorem X18_success_runs_each_step_once E r w payload :
  let w' := handlerUploadVideo E r w in
  let tr := calls_since w w' in
  response w' = Some {| status := 200; body := payload |} ->
  count_calls is_DbGetVideo tr = 1%nat /\
  count_calls is_OsCreateTemp tr = 1%nat /\
  count_calls is_Ffmpeg tr = 1%nat /\
  count_calls is_Ffprobe tr = 1%nat /\
  count_calls is_S3PutObject tr = 1%nat /\
  count_calls is_DbUpdateVideo tr = 1%nat /\
  exists tempFile,
    os_CreateTemp E "" "tubely-upload.mp4" = Ok tempFile /\
    (tempFile ∉ files w') /\ ((tempFile +:+ ".processing") ∉ files w').
Proof.
  intros w' tr. subst tr w'.
  go_run w' H.
  all: world_norm; try discriminate.
  intros _. calls_norm. cbn.
  repeat (split; [reflexivity|]).
  eexists. split; [reflexivity|].
  split; [apply not_elem_of_remove | apply not_elem_of_remove_twice].
Qed.

Lemma X18_success_runs_each_step_once_witness :
  let w' := handlerUploadVideo sampleEnv sampleRequest sampleWorld in
  let tr := calls_since sampleWorld w' in
  count_calls is_DbGetVideo tr = 1%nat /\
  count_calls is_OsCreateTemp tr = 1%nat /\
  count_calls is_Ffmpeg tr = 1%nat /\
  count_calls is_Ffprobe tr = 1%nat /\
  count_calls is_S3PutObject tr = 1%nat /\
  count_calls is_DbUpdateVideo tr = 1%nat /\
  exists tempFile,
    os_CreateTemp sampleEnv "" "tubely-upload.mp4" = Ok tempFile /\
    (tempFile ∉ files w') /\ ((tempFile +:+ ".processing") ∉ files w').
Proof.
  apply (X18_success_runs_each_step_once sampleEnv sampleRequest sampleWorld
           (VideoBody (set_VideoURL sampleVideo
              "https://tubely-bucket.s3.amazonaws.com/landscape/abc.mp4?X-Amz-Signature=abc"))).
  vm_compute. reflexivity.
Defined.

(** X19: with comma-free names the signed URL is that of the stored
    object.  If the bucket name holds no comma and no key built for one of
    the three directories does, then on a 200 the URL in the response is
    the one the presign call returned for exactly the bucket and key of
    the object written in the same run. *)
Theorem X19_signed_url_targets_stored_object E r w payload :
  contains_sep (s3Bucket E) = false ->
  (forall directory,
      directory = "landscape" \/ directory = "portrait" \/ directory = "other" ->
      contains_sep (path_Join E directory (getAssetPath E "video/mp4")) = false) ->
  let w' := handlerUploadVideo E r w in
  response w' = Some {| status := 200; body := payload |} ->
  exists video key bodyFile signedURL,
    S3PutObject (s3Bucket E) key bodyFile "video/mp4" ∈ calls_since w w' /\
    s3_PresignGetObject E (s3Bucket E) key 300000000000 = Ok signedURL /\
    payload = VideoBody {| ID := ID video; UserID := UserID video;
                           VideoURL := Some signedURL |}.
Proof.
  intros Hbucket Hkey w'. subst w'.
  go_run w' H.
  all: world_norm; try discriminate.
  intros [= <-]. subst.
  apply dbVideoToSignedVideo_ok in Hsign as [[Hnone _]|Hsome]; [discriminate Hnone|].
  destruct Hsome as (videoURL & bucket' & key' & signedURL & [= <-] & Hdec & Hurl & ->).
  rewrite decodeReference_encodeReference, Hbucket in Hdec.
  rewrite (before_sep_id _ Hbucket),
    (before_sep_id _ (Hkey _ (directoryFor_three _))) in Hdec.
  injection Hdec as <- <-.
  eexists v, _, _, signedURL. calls_norm.
  split; [eapply (list_elem_of_lookup_2 _ 7%nat); reflexivity|].
  split; [exact Hurl | reflexivity].
Qed.

Lemma X19_signed_url_targets_stored_object_witness :
  let w' := handlerUploadVideo sampleEnv sampleRequest sampleWorld in
  exists video key bodyFile signedURL,
    S3PutObject (s3Bucket sampleEnv) key bodyFile "video/mp4"
      ∈ calls_since sampleWorld w' /\
    s3_PresignGetObject sampleEnv (s3Bucket sampleEnv) key 300000000000
      = Ok signedURL /\
    VideoBody (set_VideoURL sampleVideo
      "https://tubely-bucket.s3.amazonaws.com/landscape/abc.mp4?X-Amz-Signature=abc")
    = VideoBody {| ID := ID video; UserID := UserID video;
                   VideoURL := Some signedURL |}.
Proof.
  apply (X19_signed_url_targets_stored_object sampleEnv sampleRequest sampleWorld).
  - reflexivity.
  - intros directory [Hd | [Hd | Hd]]; rewrite Hd; reflexivity.
  - vm_compute. reflexivity.
Defined.

(** ** The earlier revision, continued *)



(** X21: the earlier revision leaves no file behind.  On every path, any
    file on disk after the run was there before it, and the temp file, once
    created, is gone. *)
Theorem X21_earlier_leaves_no_file E r w :
  let w' := Earlier.handlerUploadVideo E r w in
  (forall path, path ∈ files w' -> path ∈ files w) /\
  (forall tempFile,
      os_CreateTemp E "" "tubely-upload.mp4" = Ok tempFile ->
      count_calls is_OsCreateTemp (calls_since w w') <> 0%nat ->
      tempFile ∉ files w').
Proof.
  intros w'. subst w'.
  go_run w' H.
  all: calls_norm; world_norm; split.
  all: try (intros path;
            rewrite ?elem_of_difference, ?elem_of_union, ?elem_of_singleton; tauto).
  all: intros tempFile Htemp;
    cbn [count_calls List.filter is_OsCreateTemp length]; intros Hmade;
    try (exfalso; apply Hmade; reflexivity).
  all: simplify_eq; apply not_elem_of_remove.
Qed.

(** X22: the two revisions differ only from the remux on.  Whenever the
    later revision returns without having run ffmpeg, the earlier revision
    leaves exactly the same world: same response, same calls, same disk and
    store. *)
Theorem X22_revisions_agree_before_remux E r w :
  count_calls is_Ffmpeg (calls_since w (handlerUploadVideo E r w)) = 0%nat ->
  Earlier.handlerUploadVideo E r w = handlerUploadVideo E r w.
Proof.
  remember (handlerUploadVideo E r w) as w1 eqn:H1. symmetry in H1.
  go_exec H1. all: subst w1.
  all: calls_norm; cbn [count_calls List.filter is_Ffmpeg length]; intros Hnone;
    try discriminate Hnone.
  all: remember (Earlier.handlerUploadVideo E r w) as w2 eqn:H2; symmetry in H2;
    go_exec H2; subst w2; reflexivity.
Qed.

Lemma X22_revisions_agree_before_remux_witness :
  Earlier.handlerUploadVideo sampleEnv wrongTypeRequest sampleWorld
  = handlerUploadVideo sampleEnv wrongTypeRequest sampleWorld.
Proof.
  apply (X22_revisions_agree_before_remux sampleEnv wrongTypeRequest sampleWorld).
  vm_compute. reflexivity.
Defined.

Lemma earlier_not_owner_rejected_witness :
  let w' := Earlier.handlerUploadVideo sampleEnv strangerRequest sampleWorld in
  response w' = Some {| status := 401; body := ErrorBody "Video is not yours!" |} /\
  count_calls is_S3PutObject (calls_since sampleWorld w') = 0%nat /\
  count_calls is_DbUpdateVideo (calls_since sampleWorld w') = 0%nat /\
  videos w' = videos sampleWorld.
Proof.
  apply (earlier_not_owner_rejected sampleEnv strangerRequest sampleWorld
           "v1" "mallory" "mallory" sampleVideo);
    [reflexivity | reflexivity | reflexivity | vm_compute; reflexivity | discriminate].
Defined.

Lemma earlier_wrong_media_type_rejected_witness :
  let w' := Earlier.handlerUploadVideo sampleEnv wrongTypeRequest sampleWorld in
  count_calls is_OsCreateTemp (calls_since sampleWorld w') = 0%nat /\
  files w' = files sampleWorld /\
  (exists code msg,
      response w' = Some {| status := code; body := ErrorBody msg |}).
Proof.
  apply (earlier_wrong_media_type_rejected sampleEnv wrongTypeRequest sampleWorld).
  intros file [= <-]. discriminate.
Defined.

(** ** When the remux output stays on disk *)

(** X23: the remux output is left behind exactly when the write is not
    reached.  In a run in which ffmpeg ran and succeeded, the remux output
    is on disk when the handler returns if and only if the run made no
    object-store write, that is, if the probe or [os.Open] failed. *)
Theorem X23_remux_output_left_iff_no_write E r w tempFile :
  os_CreateTemp E "" "tubely-upload.mp4" = Ok tempFile ->
  ffmpeg E tempFile = None ->
  let w' := handlerUploadVideo E r w in
  count_calls is_Ffmpeg (calls_since w w') <> 0%nat ->
  (tempFile +:+ ".processing") ∈ files w' <->
  count_calls is_S3PutObject (calls_since w w') = 0%nat.
Proof.
  intros Htemp Hremux w'. subst w'.
  go_run w' H.
  all: calls_norm; cbn [count_calls List.filter is_Ffmpeg is_S3PutObject length];
    intros Hran; try (exfalso; apply Hran; reflexivity).
  all: world_norm; pose proof (processing_path_neq tempFile) as Hneq.
  all: split;
    [ intros Hin;
      first [ reflexivity
            | exfalso; exact (not_elem_of_remove_twice _ _ _ Hin) ]
    | intros Hcount;
      first [ discriminate Hcount
            | apply elem_of_remove_other; [exact Hneq | apply elem_of_create] ] ].
Qed.

Lemma X23_remux_output_left_iff_no_write_witness :
  let w' := handlerUploadVideo probeFailEnv sampleRequest sampleWorld in
  "/tmp/tubely-upload.mp41234.processing" ∈ files w' <->
  count_calls is_S3PutObject (calls_since sampleWorld w') = 0%nat.
Proof.
  apply (X23_remux_output_left_iff_no_write probeFailEnv sampleRequest sampleWorld
           "/tmp/tubely-upload.mp41234").
  - reflexivity.
  - reflexivity.
  - vm_compute. discriminate.
Defined.

(** ** Form errors *)

(** X24: an authorized request whose multipart form cannot be parsed
    within the size cap, or which has no [video] file field, is answered
    400 after the one lookup: nothing is staged, written or updated, and
    no form file is closed, none having been opened. *)
Theorem X24_form_errors_are_400 E r w videoID token userID video :
  uuid_Parse E (PathValue_videoID r) = Ok videoID ->
  auth_GetBearerToken E (Header r) = Ok token ->
  auth_ValidateJWT E token (jwtSecret E) = Ok userID ->
  videos w !! videoID = Some video ->
  UserID video = userID ->
  (ParseMultipartForm r <> None \/ exists err, FormFile_video r = Err err) ->
  let w' := handlerUploadVideo E r w in
  calls_since w w' = [DbGetVideo videoID] /\
  files w' = files w /\ videos w' = videos w /\
  exists msg,
    response w' = Some {| status := 400; body := ErrorBody msg |} /\
    (ParseMultipartForm r <> None -> msg = "Exceeded max upload file size") /\
    (ParseMultipartForm r = None -> msg = "Unable to parse form file").
Proof.
  intros Hid Htok Hjwt Hget Hown Hform w'. subst w'.
  go_run w' H.
  all: try (exfalso; destruct Hform as [Hf|[? Hf]]; [apply Hf; reflexivity | discriminate Hf]).
  all: calls_norm; world_norm; repeat (split; [reflexivity|]).
  all: eexists; split; [reflexivity|]; split; intros Hp;
    first [reflexivity | discriminate Hp | exfalso; apply Hp; reflexivity].
Qed.

Lemma X24_form_errors_are_400_witness :
  let w' := handlerUploadVideo sampleEnv oversizedRequest sampleWorld in
  calls_since sampleWorld w' = [DbGetVideo "v1"] /\
  files w' = files sampleWorld /\ videos w' = videos sampleWorld /\
  exists msg,
    response w' = Some {| status := 400; body := ErrorBody msg |} /\
    (ParseMultipartForm oversizedRequest <> None ->
     msg = "Exceeded max upload file size") /\
    (ParseMultipartForm oversizedRequest = None ->
     msg = "Unable to parse form file").
Proof.
  apply (X24_form_errors_are_400 sampleEnv oversizedRequest sampleWorld
           "v1" "alice" "alice" sampleVideo);
    first [reflexivity | vm_compute; reflexivity | left; discriminate].
Defined.

(** ** Sample runs for the ordering and argument properties *)

Lemma X12_update_only_after_store_witness :
  let tr := calls_since sampleWorld
              (handlerUploadVideo sampleEnv sampleRequest sampleWorld) in
  exists (j : nat) key bodyFile,
    (j < 8)%nat /\
    tr !! j = Some (S3PutObject (s3Bucket sampleEnv) key bodyFile "video/mp4") /\
    s3_PutObject sampleEnv (s3Bucket sampleEnv) key bodyFile "video/mp4" = None /\
    VideoURL (set_VideoURL sampleVideo "tubely-bucket,landscape/abc.mp4")
    = Some (encodeReference (s3Bucket sampleEnv) key).
Proof.
  apply (X12_update_only_after_store sampleEnv sampleRequest sampleWorld 8%nat
           (set_VideoURL sampleVideo "tubely-bucket,landscape/abc.mp4")).
  vm_compute. reflexivity.
Defined.

Lemma X17_put_object_arguments_witness :
  "tubely-bucket" = s3Bucket sampleEnv /\ "video/mp4" = "video/mp4" /\
  exists directory,
    (directory = "landscape" \/ directory = "portrait" \/ directory = "other") /\
    "landscape/abc.mp4" = path_Join sampleEnv directory (getAssetPath sampleEnv "video/mp4").
Proof.
  apply (X17_put_object_arguments sampleEnv sampleRequest sampleWorld
           "tubely-bucket" "landscape/abc.mp4"
           "/tmp/tubely-upload.mp41234.processing" "video/mp4").
  apply (list_elem_of_lookup_2 _ 7%nat). vm_compute. reflexivity.
Defined.
